(** * Multi-modal RAG: the two-store retriever, the Q&A chain and the app

    A shallow embedding of [multimodal_rag/retriever.py],
    [multimodal_rag/qa_chain.py], [multimodal_rag/summarizer.py] and
    [multimodal_rag/main.py].

    The LangChain, Chroma and OpenAI objects the program is built from are
    collaborators outside the repository.  They enter as the fields of the
    class [Collaborators]; the in-memory behaviour of the two stores
    ([Chroma.add_documents], [similarity_search], [InMemoryStore.mset],
    [mget], [MultiVectorRetriever.invoke]) is written out from the
    libraries' documented behaviour.  Console output ([print]) is not
    modelled. *)

From stdpp Require Import gmap strings pretty list sorting fin_maps.

Local Open Scope string_scope.
Local Open Scope list_scope.
Local Open Scope nat_scope.

(** ** Python values, exceptions and results *)

(** The exceptions the program sees: those it raises itself
    ([ValueError], [RuntimeError], [FileNotFoundError]) and whatever a
    collaborator raises ([UpstreamError]). *)
Inductive exn :=
  | ValueError (msg : string)
  | RuntimeError (msg : string)
  | FileNotFoundError (msg : string)
  | UpstreamError (msg : string).

(** [str(e)] *)
Definition str_exn (e : exn) : string :=
  match e with
  | ValueError msg | RuntimeError msg | FileNotFoundError msg
  | UpstreamError msg => msg
  end.

(** A call either returns a value or raises. *)
Inductive outcome (A : Type) :=
  | Returned (a : A)
  | Raised (e : exn).
Arguments Returned {A} a.
Arguments Raised {A} e.

#[export] Instance outcome_ret : MRet outcome := @Returned.
#[export] Instance outcome_bind : MBind outcome := λ A B f m,
  match m with
  | Returned a => f a
  | Raised e => Raised e
  end.

(** [try: body  except Exception as e: handler e] *)
Definition try_except {A} (body : outcome A) (handler : exn → outcome A) : outcome A :=
  match body with
  | Returned a => Returned a
  | Raised e => handler e
  end.

(** Code that mutates an object of type [S]: the object after the call is
    returned also when the call raises, as in Python. *)
Definition action (S A : Type) : Type := S → outcome A * S.

#[export] Instance action_ret {S} : MRet (action S) := λ A a s, (Returned a, s).
#[export] Instance action_bind {S} : MBind (action S) := λ A B f m s,
  match m s with
  | (Returned a, s') => f a s'
  | (Raised e, s') => (Raised e, s')
  end.

Definition raise {S A} (e : exn) : action S A := λ s, (Raised e, s).
Definition get_state {S} : action S S := λ s, (Returned s, s).
Definition lift_outcome {S A} (o : outcome A) : action S A := λ s, (o, s).

Definition try_except_action {S A} (body : action S A) (handler : exn → action S A)
  : action S A := λ s,
  match body s with
  | (Returned a, s') => (Returned a, s')
  | (Raised e, s') => handler e s'
  end.

(** Values held in the dictionaries the program builds. *)
Inductive atom :=
  | AStr (s : string)
  | AInt (z : Z)
  | ABool (b : bool).

Inductive value :=
  | VAtom (a : atom)
  | VDict (d : gmap string atom).

Definition VStr (s : string) : value := VAtom (AStr s).
Definition VInt (z : Z) : value := VAtom (AInt z).
Definition VBool (b : bool) : value := VAtom (ABool b).

(** Python truth value of a dictionary entry. *)
Definition truthy (v : value) : bool :=
  match v with
  | VAtom (AStr s) => negb (String.eqb s "")
  | VAtom (AInt z) => negb (z =? 0)%Z
  | VAtom (ABool b) => b
  | VDict d => negb (bool_decide (d = ∅))
  end.

(** [result.get('error')] taken as a condition, as [main.py] line 117 does. *)
Definition error_flag (result : gmap string value) : bool :=
  match result !! "error" with
  | Some v => truthy v
  | None => false
  end.

(** [not xs] for a list *)
Definition py_not {A} (xs : list A) : bool :=
  match xs with
  | [] => true
  | _ :: _ => false
  end.

(** [xs[:k]] *)
Definition slice_to {A} (xs : list A) (k : Z) : list A :=
  if (0 <=? k)%Z then take (Z.to_nat k) xs
  else take (Z.to_nat (Z.of_nat (length xs) + k)) xs.

(** [sep.join(parts)] *)
Fixpoint join (sep : string) (parts : list string) : string :=
  match parts with
  | [] => ""
  | [p] => p
  | p :: rest => p +:+ sep +:+ join sep rest
  end.

Definition newline : string := String (Ascii.ascii_of_nat 10) EmptyString.

(** ** Collaborators *)

(** The external services.  Each is a function of its input: a text has one
    embedding, a prompt one completion, and the [n]-th identifier drawn from
    [uuid.uuid4] is [uuid4 n]. *)
Class Collaborators := {
  Embedding : Type;
  (** [OpenAIEmbeddings]: one vector per text, or a failure *)
  embed : string → outcome Embedding;
  (** the similarity of two vectors in the geometry of the vector store *)
  similarity : Embedding → Embedding → Z;
  (** [str(uuid.uuid4())], by position in the stream of draws *)
  uuid4 : nat → string;
  (** [text_prompt | text_chain | StrOutputParser()] *)
  text_summarizer : string → outcome string;
  (** [table_prompt | text_chain | StrOutputParser()] *)
  table_summarizer : string → outcome string;
  (** [vision_chain.invoke(messages).content] for one encoded image *)
  vision_chain : string → outcome string;
  (** [prompt | llm | StrOutputParser()] of the Q&A chain, given the
      formatted context and the question *)
  answer_chain : string → string → outcome string
}.

(** ** retriever.py *)

(** [langchain_core.documents.Document] *)
Record Document := {
  page_content : string;
  metadata : gmap string atom
}.

Definition id_key : string := "doc_id".

Section Retriever.
Context `{Collaborators}.

(** [ModernMultiVectorRetriever]: the Chroma collection (each summary
    document with the vector it was indexed under, in insertion order), the
    [InMemoryStore] and the number of identifiers drawn so far. *)
Record ModernMultiVectorRetriever := {
  vectorstore : list (Embedding * Document);
  docstore : gmap string string;
  uuid_drawn : nat
}.

(** [[str(uuid.uuid4()) for _ in summaries]] *)
Definition draw_uuids (n : nat) : action ModernMultiVectorRetriever (list string) :=
  λ st, (Returned (uuid4 <$> seq (uuid_drawn st) n),
         {| vectorstore := vectorstore st;
            docstore := docstore st;
            uuid_drawn := uuid_drawn st + n |}).

(** [embeddings.embed_documents(texts)] *)
Fixpoint embed_documents (texts : list string) : outcome (list Embedding) :=
  match texts with
  | [] => Returned []
  | t :: rest =>
      e ← embed t;
      es ← embed_documents rest;
      Returned (e :: es)
  end.

(** [Chroma.add_documents]: all texts are embedded first, then the
    collection grows by one entry per document. *)
Definition vectorstore_add_documents (docs : list Document)
  : action ModernMultiVectorRetriever unit := λ st,
  match embed_documents (page_content <$> docs) with
  | Returned es =>
      (Returned (),
       {| vectorstore := vectorstore st ++ zip es docs;
          docstore := docstore st;
          uuid_drawn := uuid_drawn st |})
  | Raised e => (Raised e, st)
  end.

(** [InMemoryStore.mset]: [for key, value in pairs: store[key] = value] *)
Definition mset (pairs : list (string * string)) (store : gmap string string)
  : gmap string string :=
  foldl (λ m kv, <[kv.1 := kv.2]> m) store pairs.

Definition docstore_mset (pairs : list (string * string))
  : action ModernMultiVectorRetriever unit := λ st,
  (Returned (),
   {| vectorstore := vectorstore st;
      docstore := mset pairs (docstore st);
      uuid_drawn := uuid_drawn st |}).

(** The summary documents of [add_documents_to_retriever], lines 69-79. *)
Definition summary_docs (doc_ids : list string) (content_type : string)
    (summaries : list string) : list Document :=
  imap (λ i summary,
    {| page_content := summary;
       metadata := {[ id_key := AStr (doc_ids !!! i);
                      "content_type" := AStr content_type;
                      "index" := AInt (Z.of_nat i) ]} |}) summaries.

Definition mismatch_message (content_type : string) : string :=
  "Mismatch in " +:+ content_type +:+ " summaries and original content lengths".

Definition add_documents_to_retriever
    (summaries original_contents : list string) (content_type : string)
  : action ModernMultiVectorRetriever unit :=
  if py_not summaries || py_not original_contents then mret ()
  else if negb (length summaries =? length original_contents)%nat then
    raise (ValueError (mismatch_message content_type))
  else
    try_except_action
      (doc_ids ← draw_uuids (length summaries);
       vectorstore_add_documents (summary_docs doc_ids content_type summaries);;
       docstore_mset (zip doc_ids original_contents))
      (λ e, raise e).

Definition add_all_content
    (text_summaries text_elements table_summaries table_elements
     image_summaries : list string)
  : action ModernMultiVectorRetriever unit :=
  (if negb (py_not text_summaries) && negb (py_not text_elements)
   then add_documents_to_retriever text_summaries text_elements "text"
   else mret ());;
  (if negb (py_not table_summaries) && negb (py_not table_elements)
   then add_documents_to_retriever table_summaries table_elements "table"
   else mret ());;
  (if negb (py_not image_summaries)
   then add_documents_to_retriever image_summaries image_summaries "image"
   else mret ()).

(** [x] ranks before [y] for the query vector [qe]. *)
Definition ranks_before (qe : Embedding) (x y : Embedding * Document) : Prop :=
  (similarity qe y.1 ≤ similarity qe x.1)%Z.

#[export] Instance ranks_before_dec qe : RelDecision (ranks_before qe).
Proof. intros x y. unfold ranks_before. apply _. Defined.

(** [Chroma.similarity_search(query, k)]: the [k] entries nearest to the
    query, nearest first. *)
Definition similarity_search (st : ModernMultiVectorRetriever) (query : string)
    (k : nat) : outcome (list Document) :=
  qe ← embed query;
  Returned (take k (snd <$> merge_sort (ranks_before qe) (vectorstore st))).

(** The identifier a summary document is tagged with, if any. *)
Definition doc_key (d : Document) : option string :=
  match metadata d !! id_key with
  | Some (AStr i) => Some i
  | _ => None
  end.

(** The loop of [MultiVectorRetriever._get_relevant_documents] that collects
    the identifiers of the hits, first occurrence only.  A hit without a
    string identifier has no entry in the document store and is left out
    here already. *)
Definition collect_ids (sub_docs : list Document) : list string :=
  foldl (λ ids d,
    match doc_key d with
    | Some i => if bool_decide (i ∈ ids) then ids else ids ++ [i]
    | None => ids
    end) [] sub_docs.

(** [InMemoryStore.mget] *)
Definition mget (store : gmap string string) (keys : list string)
  : list (option string) :=
  (λ k, store !! k) <$> keys.

(** [self.retriever.invoke(query)] with [search_kwargs = {"k": 4}] *)
Definition retriever_invoke (st : ModernMultiVectorRetriever) (query : string)
  : outcome (list string) :=
  sub_docs ← similarity_search st query 4;
  Returned (omap id (mget (docstore st) (collect_ids sub_docs))).

(** [retriever.invoke] returns a list of the stored strings, so the
    [isinstance] test holds and [str(doc)] is [doc] itself. *)
Definition search (st : ModernMultiVectorRetriever) (query : string) (k : Z)
  : outcome (list string) :=
  try_except
    (results ← retriever_invoke st query;
     Returned (slice_to results k))
    (λ e, Returned ["Search error: " +:+ str_exn e]).

(** Counting the entries of two in-memory stores does not fail, so the
    handler of [get_stats] is never entered. *)
Definition get_stats (st : ModernMultiVectorRetriever) : gmap string atom :=
  {[ "vector_documents" := AInt (Z.of_nat (length (vectorstore st)));
     "stored_documents" := AInt (Z.of_nat (size (docstore st)));
     "collection_name" := AStr "multimodal_summaries" ]}.

End Retriever.

(** ** qa_chain.py *)

(** The fields of [Config] the Q&A chain reads. *)
Record Config := {
  gpt_35_model : string;
  max_tokens : Z
}.

(** [ModernQAChain].  Its [retriever] attribute is the very object the app
    holds, so the methods below take the app's retriever as it is at the
    time of the call. *)
Record ModernQAChain := {
  chain_config : Config
}.

Section QAChain.
Context `{Collaborators}.

Definition format_docs (docs : list string) : string :=
  join (newline +:+ newline) ((λ doc, "Content: " +:+ doc) <$> docs).

(** [self.chain.invoke({"question": question})]: the context branch runs
    [search] with its default [k], the rest is the collaborator. *)
Definition chain_invoke (st : ModernMultiVectorRetriever) (question : string)
  : outcome string :=
  docs ← search st question 4;
  answer_chain (format_docs docs) question.

(** [self.chain.batch(inputs)]: one answer per input, or the first
    exception in input order. *)
Fixpoint chain_batch (st : ModernMultiVectorRetriever) (questions : list string)
  : outcome (list string) :=
  match questions with
  | [] => Returned []
  | q :: rest =>
      a ← chain_invoke st q;
      answers ← chain_batch st rest;
      Returned (a :: answers)
  end.

Definition ask (st : ModernMultiVectorRetriever) (question : string)
  : outcome (gmap string value) :=
  try_except
    (answer ← chain_invoke st question;
     context_docs ← search st question 4;
     Returned {[ "question" := VStr question;
                 "answer" := VStr answer;
                 "context_used" := VInt (Z.of_nat (length context_docs));
                 "retriever_stats" := VDict (get_stats st) ]})
    (λ e,
     let error_msg := "Error processing question: " +:+ str_exn e in
     Returned {[ "question" := VStr question;
                 "answer" := VStr error_msg;
                 "context_used" := VInt 0;
                 "error" := VBool true ]}).

Definition batch_result (i : nat) (qa : string * string) : gmap string value :=
  {[ "question" := VStr qa.1;
     "answer" := VStr qa.2;
     "batch_index" := VInt (Z.of_nat i) ]}.

Definition batch_error_result (e : exn) (q : string) : gmap string value :=
  {[ "question" := VStr q;
     "answer" := VStr ("Batch error: " +:+ str_exn e);
     "error" := VBool true ]}.

Definition batch_ask (st : ModernMultiVectorRetriever) (questions : list string)
  : outcome (list (gmap string value)) :=
  try_except
    (answers ← chain_batch st questions;
     Returned (imap batch_result (zip questions answers)))
    (λ e, Returned (batch_error_result e <$> questions)).

End QAChain.

(** ** summarizer.py *)

Section Summarizer.
Context `{Collaborators}.

(** The loop shared by the three methods: one [try] per element, with an
    [append] in the body and one in the handler. *)
Definition summarize_loop (invoke : string → outcome string)
    (on_error : exn → string) (elements : list string) : outcome (list string) :=
  foldl (λ acc element,
    summaries ← acc;
    try_except
      (summary ← invoke element;
       Returned (summaries ++ [summary]))
      (λ e, Returned (summaries ++ [on_error e])))
    (Returned []) elements.

Definition summarize_text_elements (text_elements : list string)
  : outcome (list string) :=
  summarize_loop text_summarizer
    (λ e, "Error processing text: " +:+ String.substring 0 100 (str_exn e) +:+ "...")
    text_elements.

Definition summarize_table_elements (table_elements : list string)
  : outcome (list string) :=
  summarize_loop table_summarizer
    (λ e, "Error processing table: " +:+ String.substring 0 100 (str_exn e) +:+ "...")
    table_elements.

Definition summarize_image_elements (image_elements : list string)
  : outcome (list string) :=
  summarize_loop vision_chain
    (λ e, "Error processing image: " +:+ String.substring 0 100 (str_exn e) +:+ "...")
    image_elements.

(** What the loop leaves at the position of one element. *)
Definition summary_or_error (invoke : string → outcome string)
    (on_error : exn → string) (element : string) : string :=
  match invoke element with
  | Returned summary => summary
  | Raised e => on_error e
  end.

End Summarizer.

(** ** main.py *)

Section App.
Context `{Collaborators}.

Record MultiModalRAGApp := {
  config : Config;
  retriever : ModernMultiVectorRetriever;
  qa_chain : option ModernQAChain
}.

(** [MultiModalRAGApp.__init__]: no chain yet and an empty document store.
    The Chroma collection is kept on disk ([persist_directory]), so it
    starts with whatever earlier runs left in it; the position in the stream
    of identifiers is whatever it is at that time. *)
Definition new_app (cfg : Config) (persisted : list (Embedding * Document))
    (drawn : nat) : MultiModalRAGApp :=
  {| config := cfg;
     retriever := {| vectorstore := persisted; docstore := ∅; uuid_drawn := drawn |};
     qa_chain := None |}.

(** A method of the retriever, called through [self.retriever]. *)
Definition on_retriever {A} (m : action ModernMultiVectorRetriever A)
  : action MultiModalRAGApp A := λ app,
  let '(o, r) := m (retriever app) in
  (o, {| config := config app; retriever := r; qa_chain := qa_chain app |}).

Definition create_summaries (text_elements table_elements image_elements : list string)
  : outcome (list string * list string * list string) :=
  text_summaries ← summarize_text_elements text_elements;
  table_summaries ← summarize_table_elements table_elements;
  image_summaries ← summarize_image_elements image_elements;
  Returned (text_summaries, table_summaries, image_summaries).

(** [self.qa_chain = ModernQAChain(self.config, self.retriever)]; building
    the chain calls no collaborator. *)
Definition build_qa_chain : action MultiModalRAGApp unit := λ app,
  (Returned (),
   {| config := config app;
      retriever := retriever app;
      qa_chain := Some {| chain_config := config app |} |}).

Definition setup_retrieval
    (text_summaries text_elements table_summaries table_elements
     image_summaries : list string)
  : action MultiModalRAGApp unit :=
  on_retriever (add_all_content text_summaries text_elements
                  table_summaries table_elements image_summaries);;
  build_qa_chain.

Definition ask_question (app : MultiModalRAGApp) (question : string)
  : outcome (gmap string value) :=
  match qa_chain app with
  | None => Returned {[ "error" := VStr "Q&A chain not initialized" ]}
  | Some _ => ask (retriever app) question
  end.

(** Steps 2 and 3 of [run_full_pipeline], from the elements step 1
    extracted; step 4 only prints. *)
Definition run_full_pipeline (text_elements table_elements image_elements : list string)
  : action MultiModalRAGApp unit :=
  summaries ← lift_outcome (create_summaries text_elements table_elements image_elements);
  let '(text_summaries, table_summaries, image_summaries) := summaries in
  setup_retrieval text_summaries text_elements
                  table_summaries table_elements image_summaries.

(** The two states of the answering side of the app. *)
Inductive orchestrator_state := Uninitialized | Ready.

Definition state_of (app : MultiModalRAGApp) : orchestrator_state :=
  match qa_chain app with
  | None => Uninitialized
  | Some _ => Ready
  end.

(** A session: calls on one app object in the order a client issues them.
    A call that raises ends the session there, as an uncaught exception
    does. *)
Inductive call :=
  | SetupRetrieval (text_summaries text_elements table_summaries
                    table_elements image_summaries : list string)
  | AskQuestion (question : string).

(** The call is one of [setup_retrieval], whatever its lists hold. *)
Definition is_setup_retrieval (c : call) : bool :=
  match c with
  | SetupRetrieval _ _ _ _ _ => true
  | AskQuestion _ => false
  end.

Definition run_call (c : call) : action MultiModalRAGApp (list (gmap string value)) :=
  match c with
  | SetupRetrieval ts te tbs tbe ims =>
      setup_retrieval ts te tbs tbe ims;; mret []
  | AskQuestion q =>
      app ← get_state;
      r ← lift_outcome (ask_question app q);
      mret [r]
  end.

Fixpoint run_calls (cs : list call) : action MultiModalRAGApp (list (gmap string value)) :=
  match cs with
  | [] => mret []
  | c :: rest =>
      rs ← run_call c;
      rs' ← run_calls rest;
      mret (rs ++ rs')
  end.

End App.

(** ** retriever.py: a document that went missing *)

Section MissingContent.
Context `{Collaborators}.


(** The identifiers of the hits for a query vector, in rank order. *)
Definition hit_ids (st : ModernMultiVectorRetriever) (qe : Embedding) : list string :=
  collect_ids (take 4 (snd <$> merge_sort (ranks_before qe) (vectorstore st))).

End MissingContent.

(** ** config.py: locating tesseract *)

Section Tesseract.
(** [shutil.which], [platform.system()] and [Path(path).exists()] *)
Variables (which : string → option string)
          (platform_system : string)
          (path_exists : string → bool).

Definition common_paths : list string :=
  if String.eqb platform_system "Windows" then
    [ "C:\Program Files\Tesseract-OCR\tesseract.exe";
      "C:\Program Files (x86)\Tesseract-OCR\tesseract.exe" ]
  else if String.eqb platform_system "Darwin" then
    [ "/opt/homebrew/bin/tesseract"; "/usr/local/bin/tesseract" ]
  else
    [ "/usr/bin/tesseract"; "/usr/local/bin/tesseract" ].

(** [for path in common_paths: if Path(path).exists(): return path] *)
Fixpoint first_existing (paths : list string) : option string :=
  match paths with
  | [] => None
  | path :: rest => if path_exists path then Some path else first_existing rest
  end.

Definition validate_tesseract : option string :=
  match which "tesseract" with
  | Some tesseract_cmd =>
      if negb (String.eqb tesseract_cmd "") then Some tesseract_cmd
      else first_existing common_paths
  | None => first_existing common_paths
  end.

End Tesseract.

(** ** document_processor.py *)

(** An element of [partition_pdf]: the name of its class, as
    [str(type(element))] prints it, and its text. *)
Record Element := {
  element_type : string;
  element_text : string
}.

(** A file of the figures directory: its suffix and what [_encode_image]
    gives for it. *)
Record ImageFile := {
  file_suffix : string;
  encode_image : outcome string
}.

(** [needle in text] for two strings *)
Definition py_in (needle text : string) : bool :=
  match String.index 0 needle text with
  | Some _ => true
  | None => false
  end.

(** [str.lower] on the letters A to Z, which is all that a comparison with
    a lower-case ASCII word depends on. *)
Definition lower_ascii (c : Ascii.ascii) : Ascii.ascii :=
  let n := Ascii.nat_of_ascii c in
  if (65 <=? n) && (n <=? 90) then Ascii.ascii_of_nat (n + 32) else c.

Fixpoint lower (s : string) : string :=
  match s with
  | EmptyString => EmptyString
  | String c rest => String (lower_ascii c) (lower rest)
  end.

Definition image_suffixes : list string := [".png"; ".jpg"; ".jpeg"].

Definition is_image_file (f : ImageFile) : bool :=
  bool_decide (lower (file_suffix f) ∈ image_suffixes).

(** The first loop of [categorize_elements]. *)
Definition categorize_text_and_tables (raw_elements : list Element)
  : list string * list string :=
  foldl (λ lists element,
    if py_in "CompositeElement" (element_type element) then
      (lists.1 ++ [element_text element], lists.2)
    else if py_in "Table" (element_type element) then
      (lists.1, lists.2 ++ [element_text element])
    else lists) ([], []) raw_elements.

(** The second loop, over the files of the figures directory. *)
Definition categorize_images (files : list ImageFile) : outcome (list string) :=
  foldl (λ acc image_file,
    image_elements ← acc;
    if is_image_file image_file then
      try_except
        (encoded_image ← encode_image image_file;
         Returned (image_elements ++ [encoded_image]))
        (λ e, Returned image_elements)
    else Returned image_elements) (Returned []) files.

(** [figures] is the listing of the output directory, or [None] when the
    directory does not exist. *)
Definition categorize_elements (raw_elements : list Element)
    (figures : option (list ImageFile))
  : outcome (list string * list string * list string) :=
  let lists := categorize_text_and_tables raw_elements in
  image_elements ← match figures with
                   | Some files => categorize_images files
                   | None => Returned []
                   end;
  Returned (lists.1, lists.2, image_elements).

Definition is_text_element (element : Element) : bool :=
  py_in "CompositeElement" (element_type element).

Definition is_table_element (element : Element) : bool :=
  negb (py_in "CompositeElement" (element_type element))
  && py_in "Table" (element_type element).

(** What the second loop keeps of one file. *)
Definition kept_image (f : ImageFile) : option string :=
  if is_image_file f then
    match encode_image f with
    | Returned encoded => Some encoded
    | Raised _ => None
    end
  else None.

(** What one run finds on disk and gets from [partition_pdf]: the path of
    the document as it prints, whether it exists, the outcome of creating the
    output directory, the outcome of the partition, and the listing of the
    figures directory afterwards ([None] when there is no such directory). *)
Record PdfEnvironment := {
  pdf_path : string;
  pdf_exists : bool;
  make_output_dir : outcome unit;
  partition_pdf : outcome (list Element);
  figures_dir : option (list ImageFile)
}.

Definition extract_elements_from_pdf (env : PdfEnvironment) : outcome (list Element) :=
  if negb (pdf_exists env) then
    Raised (FileNotFoundError ("PDF file not found: " +:+ pdf_path env))
  else
    make_output_dir env;;
    try_except (partition_pdf env)
      (λ e, Raised (RuntimeError ("Failed to process PDF: " +:+ str_exn e))).

(** ** main.py: the pipeline from the document on *)

Section Pipeline.
Context `{Collaborators}.

Definition process_document (env : PdfEnvironment)
  : outcome (list string * list string * list string) :=
  raw_elements ← extract_elements_from_pdf env;
  categorize_elements raw_elements (figures_dir env).

Definition demo_questions : list string :=
  [ "What do you see in the images?";
    "What is the name of the company?";
    "What is the product displayed in the image?";
    "How much are the total expenses of the company?";
    "What is the ROI?";
    "How much did the company sell in 2023?";
    "And in 2022?" ].

(** [self.qa_chain.ask] on each question in turn *)
Fixpoint ask_each (st : ModernMultiVectorRetriever) (questions : list string)
  : outcome (list (gmap string value)) :=
  match questions with
  | [] => Returned []
  | question :: rest =>
      result ← ask st question;
      results ← ask_each st rest;
      Returned (result :: results)
  end.

(** [run_demo_queries], with the results it prints as its value; every
    result of [ask] has an answer entry to print. *)
Definition run_demo_queries (app : MultiModalRAGApp)
  : outcome (list (gmap string value)) :=
  match qa_chain app with
  | None => Returned []
  | Some _ => ask_each (retriever app) demo_questions
  end.

(** [run_full_pipeline] with all its four steps, on a document. *)
Definition run_full_pipeline_on_pdf (env : PdfEnvironment)
  : action MultiModalRAGApp unit :=
  elements ← lift_outcome (process_document env);
  run_full_pipeline elements.1.1 elements.1.2 elements.2;;
  app ← get_state;
  lift_outcome (run_demo_queries app);;
  mret ().

End Pipeline.

(** ** A concrete set of collaborators

    Vectors are integers (the length of the text), similarity is the negated
    distance, identifiers are numbered.  The embedding service is down for the
    text ["offline"], the chat model fails on the question ["bad"], and the
    summarizers fail on the empty element. *)

Definition demo_embed (text : string) : outcome Z :=
  if String.eqb text "offline" then Raised (UpstreamError "connection refused")
  else Returned (Z.of_nat (String.length text)).

Definition demo_summarizer (element : string) : outcome string :=
  if String.eqb element "" then Raised (UpstreamError "empty input")
  else Returned ("summary of " +:+ element).

Definition demo_answer_chain (context question : string) : outcome string :=
  if String.eqb question "bad" then Raised (UpstreamError "rate limit reached")
  else Returned ("answer to " +:+ question).

Definition demo : Collaborators := {|
  Embedding := Z;
  embed := demo_embed;
  similarity := λ a b, (- Z.abs (a - b))%Z;
  uuid4 := λ n, "id-" +:+ pretty n;
  text_summarizer := demo_summarizer;
  table_summarizer := demo_summarizer;
  vision_chain := demo_summarizer;
  answer_chain := demo_answer_chain
|}.

Definition empty_retriever : @ModernMultiVectorRetriever demo :=
  {| vectorstore := []; docstore := ∅; uuid_drawn := 0 |}.

(** The retriever after the text pairs of [pairs] went in. *)
Definition demo_retriever (summaries originals : list string)
  : @ModernMultiVectorRetriever demo :=
  (@add_documents_to_retriever demo summaries originals "text" empty_retriever).2.

Definition demo_config : Config :=
  {| gpt_35_model := "gpt-3.5-turbo"; max_tokens := 1024 |}.

(** A call of [setup_retrieval] with nothing to ingest, then a question. *)
Definition demo_empty_setup_session : list call :=
  [ SetupRetrieval [] [] [] [] []; AskQuestion "hi" ].

(** A question, then the ingestion of one text pair, then a question. *)
Definition demo_session : list call :=
  [ AskQuestion "What is in the image?";
    SetupRetrieval ["A summary of apples"] ["Apples are a fruit grown in orchards"]
                   [] [] [];
    AskQuestion "Tell me about apples" ].

(** The same collaborators with the embedding service down for every text. *)
Definition demo_offline : Collaborators := {|
  Embedding := Z;
  embed := λ _, Raised (UpstreamError "connection refused");
  similarity := λ a b, (- Z.abs (a - b))%Z;
  uuid4 := λ n, "id-" +:+ pretty n;
  text_summarizer := demo_summarizer;
  table_summarizer := demo_summarizer;
  vision_chain := demo_summarizer;
  answer_chain := demo_answer_chain
|}.

(** A run on a document that is not there. *)
Definition demo_missing_pdf : PdfEnvironment :=
  {| pdf_path := "report.pdf";
     pdf_exists := false;
     make_output_dir := Returned ();
     partition_pdf := Returned [];
     figures_dir := None |}.

(** A Linux machine without tesseract on the search path and with one of
    the two usual binaries on disk. *)
Definition demo_path_exists (path : string) : bool :=
  String.eqb path "/usr/local/bin/tesseract".

(** Three extracted elements and a figures directory with one readable
    image, one unreadable image and one text file. *)
Definition demo_elements : list Element :=
  [ {| element_type := "<class 'unstructured.documents.elements.CompositeElement'>";
       element_text := "Revenue grew" |};
    {| element_type := "<class 'unstructured.documents.elements.Table'>";
       element_text := "2022 2023" |};
    {| element_type := "<class 'unstructured.documents.elements.Title'>";
       element_text := "Report" |} ].

Definition demo_figures : list ImageFile :=
  [ {| file_suffix := ".PNG"; encode_image := Returned "aGVsbG8=" |};
    {| file_suffix := ".jpg"; encode_image := Raised (UpstreamError "permission denied") |};
    {| file_suffix := ".txt"; encode_image := Returned "bm90ZXM=" |} ].

(** A run on a document that yields [demo_elements] and [demo_figures]. *)
Definition demo_pdf : PdfEnvironment :=
  {| pdf_path := "report.pdf";
     pdf_exists := true;
     make_output_dir := Returned ();
     partition_pdf := Returned demo_elements;
     figures_dir := Some demo_figures |}.

(** ** The properties under study *)

(** An error result that carries no answer. *)
Definition is_error_result (r : gmap string value) : Prop :=
  error_flag r = true ∧ r !! "answer" = None.

Section Properties.
Context `{Collaborators}.

(** The identifiers a call draws when [n] of them are drawn from [st] on. *)
Definition fresh_ids (st : ModernMultiVectorRetriever) (n : nat) : list string :=
  uuid4 <$> seq (uuid_drawn st) n.

(** The summary index holds a record for [summary], tagged with [id] and
    [content_type], under the vector of [summary]. *)
Definition summary_indexed (st : ModernMultiVectorRetriever)
    (id content_type summary : string) : Prop :=
  ∃ e d, (e, d) ∈ vectorstore st ∧
         embed summary = Returned e ∧
         page_content d = summary ∧
         metadata d !! id_key = Some (AStr id) ∧
         metadata d !! "content_type" = Some (AStr content_type).

(** Both stores hold their half of the pair under [id]. *)
Definition stored_pair (st : ModernMultiVectorRetriever)
    (id content_type summary original : string) : Prop :=
  summary_indexed st id content_type summary ∧ docstore st !! id = Some original.

(** The retriever after [summaries] and [original_contents] went in, the
    summaries under the vectors [es]. *)
Definition ingested (st : ModernMultiVectorRetriever)
    (summaries original_contents : list string) (content_type : string)
    (es : list Embedding) : ModernMultiVectorRetriever :=
  let doc_ids := fresh_ids st (length summaries) in
  {| vectorstore :=
       vectorstore st ++ zip es (summary_docs doc_ids content_type summaries);
     docstore := mset (zip doc_ids original_contents) (docstore st);
     uuid_drawn := uuid_drawn st + length summaries |}.

(** [results] are the stored contents of indexed records that are ranked
    by non-increasing similarity to the vector of [query]. *)
Definition ranked_by_similarity (st : ModernMultiVectorRetriever)
    (query : string) (results : list string) : Prop :=
  ∃ qe ranked,
    embed query = Returned qe ∧
    (∀ h, h ∈ ranked → h ∈ vectorstore st) ∧
    StronglySorted (ranks_before qe) ranked ∧
    Forall2 (λ h r, ∃ i, doc_key h.2 = Some i ∧ docstore st !! i = Some r)
            ranked results.

(** Search ordering and monotonic truncation at one query and one [k]. *)
Definition search_ordering_holds (st : ModernMultiVectorRetriever)
    (query : string) (k : Z) : Prop :=
  ∃ results results',
    search st query k = Returned results ∧
    search st query (k + 1) = Returned results' ∧
    (Z.of_nat (length results) ≤ k)%Z ∧
    ranked_by_similarity st query results ∧
    results `prefix_of` results'.

(** The call raises the mismatch error and leaves the retriever as it was. *)
Definition rejects_mismatch (st : ModernMultiVectorRetriever)
    (summaries original_contents : list string) (content_type : string) : Prop :=
  ∃ msg, add_documents_to_retriever summaries original_contents content_type st
         = (Raised (ValueError msg), st).

(** A failure of the embedding collaborator comes out of [search] as a
    raised error. *)
Definition surfaces_upstream_failure (st : ModernMultiVectorRetriever)
    (query : string) (k : Z) : Prop :=
  ∀ cause, embed query = Raised cause → ∃ e, search st query k = Raised e.

(** The good question of a two-question batch is answered, only the bad
    one is flagged, and the order is that of the input. *)
Definition batch_independent (st : ModernMultiVectorRetriever)
    (q_good q_bad : string) : Prop :=
  ∃ r_good r_bad answer,
    batch_ask st [q_good; q_bad] = Returned [r_good; r_bad] ∧
    r_good !! "question" = Some (VStr q_good) ∧
    r_bad !! "question" = Some (VStr q_bad) ∧
    error_flag r_good = false ∧
    r_good !! "answer" = Some (VStr answer) ∧ answer ≠ "" ∧
    error_flag r_bad = true.

(** [l] is what a summarizer leaves for [elements]: one entry per
    element, the summary where the collaborator answered and the error text
    of the handler where it raised. *)
Definition summarizes (invoke : string → outcome string) (kind : string)
    (elements l : list string) : Prop :=
  length l = length elements ∧
  ∀ i element, elements !! i = Some element →
    match invoke element with
    | Returned summary => l !! i = Some summary
    | Raised e =>
        l !! i = Some ("Error processing " +:+ kind +:+ ": "
                       +:+ String.substring 0 100 (str_exn e) +:+ "...")
    end.

End Properties.

(** ** Sequencing and Python slices *)

Lemma action_bind_returned {S A B} (m : action S A) (f : A → action S B) s b s' :
  (m ≫= f) s = (Returned b, s') →
  ∃ a s1, m s = (Returned a, s1) ∧ f a s1 = (Returned b, s').
Proof.
  unfold mbind, action_bind. destruct (m s) as [[a|e] s1]; [| done].
  intros Hf. by exists a, s1.
Qed.

Section Slices.
Context {A : Type}.
Implicit Types (xs : list A) (k : Z).

Lemma slice_to_nonneg xs k : (0 ≤ k)%Z → slice_to xs k = take (Z.to_nat k) xs.
Proof.
  intros Hk. unfold slice_to.
  destruct (Z.leb_spec 0 k); [done | lia].
Qed.

Lemma slice_to_length_le xs k : length (slice_to xs k) ≤ length xs.
Proof. unfold slice_to. destruct (0 <=? k)%Z; rewrite length_take; lia. Qed.

Lemma slice_to_length_nonneg xs k :
  (0 ≤ k)%Z → (Z.of_nat (length (slice_to xs k)) ≤ k)%Z.
Proof. intros Hk. rewrite slice_to_nonneg, length_take by done. lia. Qed.

Lemma slice_to_all xs k : (Z.of_nat (length xs) ≤ k)%Z → slice_to xs k = xs.
Proof.
  intros Hk. rewrite slice_to_nonneg by lia. apply take_ge. lia.
Qed.

Lemma slice_to_prefix_succ xs k :
  (0 ≤ k)%Z → slice_to xs k `prefix_of` slice_to xs (k + 1).
Proof.
  intros Hk. rewrite !slice_to_nonneg by lia.
  replace (Z.to_nat (k + 1)) with (Z.to_nat k + 1)%nat by lia.
  rewrite <- take_take_drop. by apply prefix_app_r.
Qed.

Lemma slice_to_sublist xs k : slice_to xs k `sublist_of` xs.
Proof. unfold slice_to. destruct (0 <=? k)%Z; apply sublist_take. Qed.
End Slices.

(** ** The document store *)

Lemma mset_snoc pairs kv (store : gmap string string) :
  mset (pairs ++ [kv]) store = <[kv.1 := kv.2]> (mset pairs store).
Proof. unfold mset. by rewrite foldl_snoc. Qed.

Lemma mset_lookup_notin pairs k (store : gmap string string) :
  k ∉ pairs.*1 → mset pairs store !! k = store !! k.
Proof.
  induction pairs as [|kv pairs IH] using rev_ind; [done |].
  rewrite fmap_app, not_elem_of_app. intros [Hk Hkv].
  rewrite mset_snoc, lookup_insert_ne; [by apply IH |].
  simpl in Hkv. set_solver.
Qed.

(** With distinct keys, each key reads back the value it was written with. *)
Lemma mset_lookup pairs i k v (store : gmap string string) :
  NoDup pairs.*1 → pairs !! i = Some (k, v) → mset pairs store !! k = Some v.
Proof.
  revert i. induction pairs as [|kv pairs IH] using rev_ind; [done |].
  intros i. rewrite fmap_app. intros [Hnd [Hdisj _]]%NoDup_app Hi.
  rewrite mset_snoc.
  destruct (decide (i < length pairs)%nat) as [Hlt | Hge].
  - rewrite lookup_app_l in Hi by done.
    rewrite lookup_insert_ne; [by eapply IH |].
    intros <-. apply (Hdisj kv.1); [| set_solver].
    apply list_elem_of_fmap. exists (kv.1, v). split; [done |].
    by eapply list_elem_of_lookup_2.
  - rewrite lookup_app_r in Hi by lia.
    apply list_lookup_singleton_Some in Hi as [_ ->]. simpl.
    apply lookup_insert_eq.
Qed.

(** ** Ingestion *)

Section Ingestion.
Context `{Collaborators}.
Implicit Types (st : ModernMultiVectorRetriever) (s o : list string).

Lemma py_not_true {A} (xs : list A) : py_not xs = true ↔ xs = [].
Proof. by destruct xs. Qed.

Lemma py_not_false {A} (xs : list A) : py_not xs = false ↔ xs ≠ [].
Proof. by destruct xs. Qed.

Lemma embed_documents_Forall2 texts es :
  embed_documents texts = Returned es →
  Forall2 (λ t e, embed t = Returned e) texts es.
Proof.
  revert es. induction texts as [|t texts IH]; simpl; intros es Hes.
  - injection Hes as <-. constructor.
  - unfold mbind, outcome_bind in Hes.
    destruct (embed t) as [e|] eqn:He; [| done].
    destruct (embed_documents texts) as [es'|]; [| done].
    injection Hes as <-. constructor; auto.
Qed.

Lemma summary_docs_page_content ids ct s :
  page_content <$> summary_docs ids ct s = s.
Proof.
  unfold summary_docs. rewrite fmap_imap.
  rewrite (imap_ext _ (λ _ x, x)) by done.
  induction s as [|x s IH]; [done |].
  rewrite imap_cons. f_equal. exact IH.
Qed.

Lemma fresh_ids_lookup st n i :
  i < n → fresh_ids st n !! i = Some (uuid4 (uuid_drawn st + i)).
Proof.
  intros Hi. unfold fresh_ids.
  by rewrite list_lookup_fmap, lookup_seq_lt.
Qed.

Lemma fresh_ids_length st n : length (fresh_ids st n) = n.
Proof. unfold fresh_ids. by rewrite length_fmap, length_seq. Qed.

(** What a call that returns has done. *)
Lemma add_documents_returned st s o ct st' :
  add_documents_to_retriever s o ct st = (Returned (), st') →
  ((s = [] ∨ o = []) ∧ st' = st) ∨
  (s ≠ [] ∧ o ≠ [] ∧ length s = length o ∧
   ∃ es, embed_documents s = Returned es ∧ st' = ingested st s o ct es).
Proof.
  unfold add_documents_to_retriever.
  destruct (py_not s) eqn:Hs; simpl.
  { intros [= <-]. left. split; [| done]. left. by apply py_not_true. }
  destruct (py_not o) eqn:Ho; simpl.
  { intros [= <-]. left. split; [| done]. right. by apply py_not_true. }
  destruct (Nat.eqb_spec (length s) (length o)) as [Hlen | Hlen]; simpl; [| done].
  unfold try_except_action, mbind, action_bind, draw_uuids,
    vectorstore_add_documents, docstore_mset, raise. simpl.
  rewrite summary_docs_page_content.
  destruct (embed_documents s) as [es|] eqn:Hes; [| done].
  intros [= <-]. right.
  repeat split; [by apply py_not_false | by apply py_not_false | done |].
  by exists es.
Qed.

(** A call with two non-empty sequences of one length returns whenever
    the summaries can be embedded. *)
Lemma add_documents_embedded st s o ct es :
  s ≠ [] → o ≠ [] → length s = length o →
  embed_documents s = Returned es →
  add_documents_to_retriever s o ct st = (Returned (), ingested st s o ct es).
Proof.
  intros Hs%py_not_false Ho%py_not_false Hlen Hes.
  unfold add_documents_to_retriever. rewrite Hs, Ho. simpl.
  rewrite (proj2 (Nat.eqb_eq _ _) Hlen). simpl.
  unfold try_except_action, mbind, action_bind, draw_uuids,
    vectorstore_add_documents, docstore_mset. simpl.
  by rewrite summary_docs_page_content, Hes.
Qed.

Lemma ingested_stored_pair st s o ct es i summary original :
  embed_documents s = Returned es →
  NoDup (fresh_ids st (length s)) →
  length s = length o →
  s !! i = Some summary → o !! i = Some original →
  stored_pair (ingested st s o ct es) (uuid4 (uuid_drawn st + i)) ct summary original.
Proof.
  intros Hes Hnd Hlen Hs Ho.
  assert (i < length s) as Hi by (by eapply lookup_lt_Some).
  pose proof (fresh_ids_lookup st (length s) i Hi) as Hid.
  apply embed_documents_Forall2 in Hes.
  destruct (Forall2_lookup_l _ _ _ _ _ Hes Hs) as (e & He & Hemb).
  split.
  - exists e, {| page_content := summary;
                 metadata := {[ id_key := AStr (uuid4 (uuid_drawn st + i));
                                "content_type" := AStr ct;
                                "index" := AInt (Z.of_nat i) ]} |}.
    split; [| by repeat split].
    simpl. apply elem_of_app. right.
    apply list_elem_of_lookup. exists i.
    apply lookup_zip_with_Some. eexists _, _. split; [done |]. split; [done |].
    unfold summary_docs. rewrite list_lookup_imap, Hs. simpl.
    by rewrite (list_lookup_total_correct _ _ _ Hid).
  - simpl. apply (mset_lookup _ i).
    + rewrite fst_zip; [done |]. rewrite fresh_ids_length. lia.
    + apply lookup_zip_with_Some. by eexists _, _.
Qed.

Lemma ingested_keeps_pair st s o ct es id ct' summary original :
  length s = length o →
  id ∉ fresh_ids st (length s) →
  stored_pair st id ct' summary original →
  stored_pair (ingested st s o ct es) id ct' summary original.
Proof.
  intros Hlen Hid [(e & d & Hin & Hrest) Hdoc]. split.
  - exists e, d. split; [| done]. simpl. apply elem_of_app. by left.
  - simpl. rewrite mset_lookup_notin; [done |].
    rewrite fst_zip; [done |]. rewrite fresh_ids_length. lia.
Qed.

End Ingestion.

(** ** Claims about ingestion *)

Section IngestionClaims.
Context `{Collaborators}.
Implicit Types (st : ModernMultiVectorRetriever) (s o : list string).

(** C1, pairing invariant: after a call of [add_documents_to_retriever]
    that returns, on sequences of one length, the identifier drawn for
    pair [i] tags a record of the summary index that holds summary [i],
    and the document store returns original [i] under it.  The
    identifiers the call draws are fresh, that is pairwise distinct. *)
Theorem pairing_invariant st s o ct st' :
  length s = length o →
  add_documents_to_retriever s o ct st = (Returned (), st') →
  NoDup (fresh_ids st (length s)) →
  ∀ i id original,
    fresh_ids st (length s) !! i = Some id →
    o !! i = Some original →
    ∃ summary, s !! i = Some summary ∧ stored_pair st' id ct summary original.
Proof.
  intros Hlen Hcall Hnd i id original Hid Ho.
  assert (i < length s) as Hi.
  { apply lookup_lt_Some in Hid. by rewrite fresh_ids_length in Hid. }
  destruct (lookup_lt_is_Some_2 s i Hi) as [summary Hs].
  exists summary. split; [done |].
  rewrite fresh_ids_lookup in Hid by done. injection Hid as <-.
  apply add_documents_returned in Hcall as [[Hempty _] | (_ & _ & _ & es & Hes & ->)].
  - destruct Hempty as [-> | ->]; done.
  - by apply ingested_stored_pair.
Qed.

(** C2, as the code has it: a call with sequences of different lengths
    raises the mismatch [ValueError] and leaves the retriever as it was
    when both sequences are non-empty; when one of them is empty it
    returns without raising, the retriever again as it was. *)
Theorem mismatch_rejection st s o ct :
  length s ≠ length o →
  (s ≠ [] → o ≠ [] →
   add_documents_to_retriever s o ct st
   = (Raised (ValueError (mismatch_message ct)), st)) ∧
  (s = [] ∨ o = [] →
   add_documents_to_retriever s o ct st = (Returned (), st)).
Proof.
  intros Hlen. unfold add_documents_to_retriever. split.
  - intros Hs%py_not_false Ho%py_not_false. rewrite Hs, Ho. simpl.
    by destruct (Nat.eqb_spec (length s) (length o)).
  - intros [-> | ->]; [done |]. by rewrite orb_true_r.
Qed.

(** C7, empty-input no-op: when either sequence is empty the call
    returns without raising and the retriever, both stores included, is as
    it was. *)
Theorem empty_input_noop st s o ct :
  s = [] ∨ o = [] →
  add_documents_to_retriever s o ct st = (Returned (), st).
Proof.
  intros [-> | ->]; unfold add_documents_to_retriever; [done |].
  by rewrite orb_true_r.
Qed.

End IngestionClaims.

(** ** All content types through one retriever *)

Section AllContent.
Context `{Collaborators}.
Implicit Types (st : ModernMultiVectorRetriever) (s o : list string).

(** Distinct draws over a range stay distinct over a part of it. *)
Lemma fresh_ids_distinct st n i j :
  NoDup (fresh_ids st n) →
  uuid_drawn st ≤ i < uuid_drawn st + n →
  uuid_drawn st ≤ j < uuid_drawn st + n →
  uuid4 i = uuid4 j → i = j.
Proof.
  intros Hnd Hi Hj Heq.
  assert (i - uuid_drawn st = j - uuid_drawn st); [| lia].
  eapply NoDup_lookup; [exact Hnd | |].
  - rewrite fresh_ids_lookup by lia. reflexivity.
  - rewrite fresh_ids_lookup by lia.
    replace (uuid_drawn st + (j - uuid_drawn st)) with j by lia.
    replace (uuid_drawn st + (i - uuid_drawn st)) with i by lia.
    by rewrite Heq.
Qed.

Lemma fresh_ids_elem st n id :
  id ∈ fresh_ids st n ↔ ∃ j, uuid_drawn st ≤ j < uuid_drawn st + n ∧ id = uuid4 j.
Proof.
  unfold fresh_ids. rewrite list_elem_of_fmap. split.
  - intros (j & -> & Hj%elem_of_seq). by exists j.
  - intros (j & Hj & ->). exists j. split; [done |]. by apply elem_of_seq.
Qed.

(** One call inside a range of distinct draws: the new pairs are stored
    under draws of the call, and pairs stored under earlier draws of the
    range stay. *)
Lemma add_documents_in_range st0 n st s o ct st' :
  NoDup (fresh_ids st0 n) →
  uuid_drawn st0 ≤ uuid_drawn st →
  uuid_drawn st' ≤ uuid_drawn st0 + n →
  add_documents_to_retriever s o ct st = (Returned (), st') →
  uuid_drawn st ≤ uuid_drawn st' ∧
  (∀ i summary original,
     s !! i = Some summary → o !! i = Some original →
     ∃ j, uuid_drawn st ≤ j < uuid_drawn st' ∧
          stored_pair st' (uuid4 j) ct summary original) ∧
  (∀ j ct' summary original,
     uuid_drawn st0 ≤ j < uuid_drawn st →
     stored_pair st (uuid4 j) ct' summary original →
     stored_pair st' (uuid4 j) ct' summary original).
Proof.
  intros Hnd Hlo Hhi Hcall.
  apply add_documents_returned in Hcall
    as [[Hempty ->] | (_ & _ & Hlen & es & Hes & ->)].
  - split; [done |]. split; [| done].
    intros i summary original Hs Ho. destruct Hempty as [-> | ->]; done.
  - simpl in *. split; [lia |]. split.
    + intros i summary original Hs Ho.
      assert (i < length s) by (by eapply lookup_lt_Some).
      exists (uuid_drawn st + i). split; [lia |].
      apply ingested_stored_pair; try done.
      apply NoDup_alt. intros a b id Ha Hb.
      assert (a < length s ∧ b < length s) as [? ?].
      { apply lookup_lt_Some in Ha, Hb.
        by rewrite fresh_ids_length in Ha, Hb. }
      rewrite fresh_ids_lookup in Ha, Hb by done.
      injection Ha as <-. injection Hb as Hb.
      apply (fresh_ids_distinct st0 n) in Hb; [lia | done | lia | lia].
    + intros j ct' summary original Hj Hpair.
      apply ingested_keeps_pair; [done | | done].
      rewrite fresh_ids_elem. intros (j' & Hj' & Heq).
      apply (fresh_ids_distinct st0 n) in Heq; [lia | done | lia | lia].
Qed.

(** The guarded calls of [add_all_content]. *)
Lemma guarded_call_in_range (guard : bool) st0 n st s o ct st' :
  NoDup (fresh_ids st0 n) →
  uuid_drawn st0 ≤ uuid_drawn st →
  uuid_drawn st' ≤ uuid_drawn st0 + n →
  (if guard then add_documents_to_retriever s o ct else mret ()) st
    = (Returned (), st') →
  (guard = false → s = [] ∨ o = []) →
  uuid_drawn st ≤ uuid_drawn st' ∧
  (∀ i summary original,
     s !! i = Some summary → o !! i = Some original →
     ∃ j, uuid_drawn st ≤ j < uuid_drawn st' ∧
          stored_pair st' (uuid4 j) ct summary original) ∧
  (∀ j ct' summary original,
     uuid_drawn st0 ≤ j < uuid_drawn st →
     stored_pair st (uuid4 j) ct' summary original →
     stored_pair st' (uuid4 j) ct' summary original).
Proof.
  intros Hnd Hlo Hhi Hcall Hguard. destruct guard.
  - by eapply add_documents_in_range.
  - injection Hcall as <-. split; [done |]. split; [| done].
    intros i summary original Hs Ho.
    destruct (Hguard eq_refl) as [-> | ->]; done.
Qed.

Lemma add_documents_drawn st s o ct ret st' :
  add_documents_to_retriever s o ct st = (ret, st') →
  uuid_drawn st ≤ uuid_drawn st'.
Proof.
  unfold add_documents_to_retriever.
  destruct (py_not s || py_not o); [by intros [= _ <-] |].
  destruct (negb _); [by intros [= _ <-] |].
  unfold try_except_action, mbind, action_bind, draw_uuids,
    vectorstore_add_documents, docstore_mset, raise. simpl.
  destruct (embed_documents _); intros [= _ <-]; simpl; lia.
Qed.

End AllContent.

(** ** Search *)

Lemma StronglySorted_sublist {A} (R : relation A) (l1 l2 : list A) :
  l1 `sublist_of` l2 → StronglySorted R l2 → StronglySorted R l1.
Proof.
  induction 1 as [| x l1 l2 Hsub IH | x l1 l2 Hsub IH]; intros Hsorted.
  - constructor.
  - apply StronglySorted_inv in Hsorted as [Htail Hhead].
    constructor; [by apply IH |].
    apply Forall_forall. intros y Hy.
    rewrite Forall_forall in Hhead. apply Hhead.
    by eapply elem_of_sublist.
  - apply StronglySorted_inv in Hsorted as [Htail _]. by apply IH.
Qed.

Section Search.
Context `{Collaborators}.
Implicit Types (st : ModernMultiVectorRetriever) (q : string) (k : Z).

#[local] Instance ranks_before_total qe : Total (ranks_before qe).
Proof. intros x y. unfold ranks_before. lia. Qed.

#[local] Instance ranks_before_trans qe : Transitive (ranks_before qe).
Proof. intros x y z. unfold ranks_before. lia. Qed.

Lemma collect_ids_snoc docs d :
  collect_ids (docs ++ [d]) =
  match doc_key d with
  | Some i => if bool_decide (i ∈ collect_ids docs) then collect_ids docs
              else collect_ids docs ++ [i]
  | None => collect_ids docs
  end.
Proof. unfold collect_ids. by rewrite foldl_snoc. Qed.

(** The identifiers collected from the hits belong, in order, to a
    subsequence of the hits. *)
Lemma collect_ids_ranked (hits : list (Embedding * Document)) :
  ∃ ranked,
    ranked `sublist_of` hits ∧
    Forall2 (λ h i, doc_key h.2 = Some i) ranked (collect_ids (hits.*2)).
Proof.
  induction hits as [|h hits (ranked & Hsub & Hids)] using rev_ind.
  - exists []. split; [done | constructor].
  - rewrite fmap_app. simpl. rewrite collect_ids_snoc.
    destruct (doc_key h.2) as [i|] eqn:Hkey.
    + case_bool_decide.
      * exists ranked. split; [by apply sublist_inserts_r | done].
      * exists (ranked ++ [h]). split; [by apply sublist_app |].
        apply Forall2_app; [done |]. by constructor.
    + exists ranked. split; [by apply sublist_inserts_r | done].
Qed.

(** The join through the document store keeps the order and drops the
    identifiers without an entry. *)
Lemma mget_ranked (store : gmap string string)
    (ranked : list (Embedding * Document)) ids :
  Forall2 (λ h i, doc_key h.2 = Some i) ranked ids →
  ∃ ranked',
    ranked' `sublist_of` ranked ∧
    Forall2 (λ h r, ∃ i, doc_key h.2 = Some i ∧ store !! i = Some r)
            ranked' (omap id (mget store ids)).
Proof.
  induction 1 as [| h i ranked ids Hkey _ (ranked' & Hsub & Hjoin)].
  - exists []. split; [done | constructor].
  - unfold mget. rewrite fmap_cons. simpl.
    destruct (store !! i) as [r|] eqn:Hr; simpl.
    + exists (h :: ranked'). split; [by constructor |].
      constructor; [by exists i | done].
    + exists ranked'. split; [by constructor | done].
Qed.

Lemma ranked_by_similarity_take st q results n :
  ranked_by_similarity st q results →
  ranked_by_similarity st q (take n results).
Proof.
  intros (qe & ranked & Hqe & Hin & Hsorted & Hjoin).
  exists qe, (take n ranked). split; [done |]. split; [| split].
  - intros h Hh. apply Hin. by eapply elem_of_sublist, sublist_take.
  - eapply StronglySorted_sublist; [apply sublist_take | done].
  - by apply Forall2_take.
Qed.

(** When the query can be embedded, the retriever returns at most four
    stored contents, ranked by similarity. *)
Lemma retriever_invoke_ranked st q qe :
  embed q = Returned qe →
  ∃ results,
    retriever_invoke st q = Returned results ∧
    length results ≤ 4 ∧
    ranked_by_similarity st q results.
Proof.
  intros Hqe. unfold retriever_invoke, similarity_search.
  rewrite Hqe. simpl. rewrite <- fmap_take.
  set (sorted := merge_sort (ranks_before qe) (vectorstore st)).
  destruct (collect_ids_ranked (take 4 sorted)) as (ranked & Hsub & Hids).
  destruct (mget_ranked (docstore st) _ _ Hids) as (ranked' & Hsub' & Hjoin).
  eexists. split; [done |].
  assert (ranked' `sublist_of` sorted) as Hsorted.
  { etrans; [exact Hsub' |]. etrans; [exact Hsub |]. apply sublist_take. }
  split.
  - rewrite <- (Forall2_length _ _ _ Hjoin).
    etrans; [apply sublist_length; etrans; [exact Hsub' | exact Hsub] |].
    rewrite length_take. lia.
  - exists qe, ranked'. split; [done |]. split; [| split; [| done]].
    + intros h Hh.
      rewrite <- (merge_sort_Permutation (ranks_before qe) (vectorstore st)).
      by eapply elem_of_sublist.
    + eapply StronglySorted_sublist; [exact Hsorted |].
      apply StronglySorted_merge_sort; apply _.
Qed.

Lemma retriever_invoke_raised st q cause :
  embed q = Raised cause → retriever_invoke st q = Raised cause.
Proof.
  intros Hq. unfold retriever_invoke, similarity_search. by rewrite Hq.
Qed.

Lemma search_returned st q k results :
  retriever_invoke st q = Returned results →
  search st q k = Returned (slice_to results k).
Proof. intros Hr. unfold search. by rewrite Hr. Qed.

Lemma search_raised st q k cause :
  embed q = Raised cause →
  search st q k = Returned ["Search error: " +:+ str_exn cause].
Proof.
  intros Hq. unfold search. by rewrite (retriever_invoke_raised _ _ _ Hq).
Qed.

(** [search] always returns, with at most four entries. *)
Lemma search_total st q k :
  ∃ results, search st q k = Returned results ∧ length results ≤ 4.
Proof.
  destruct (embed q) as [qe | cause] eqn:Hq.
  - destruct (retriever_invoke_ranked st q qe Hq) as (results & Hr & Hlen & _).
    exists (slice_to results k). split; [by apply search_returned |].
    etrans; [apply slice_to_length_le | done].
  - eexists. split; [by apply search_raised |]. simpl. lia.
Qed.

End Search.

(** ** Claims about search *)

Section SearchClaims.
Context `{Collaborators}.
Implicit Types (st : ModernMultiVectorRetriever) (q : string) (k : Z).

(** C3, as the code has it: [search] never raises.  When nothing is
    found it returns the empty sequence; when the embedding collaborator
    fails, the failure comes back inside the result, as the one entry
    ["Search error: " + str(cause)]. *)
Theorem search_never_raises st q k :
  (∃ results, search st q k = Returned results) ∧
  (retriever_invoke st q = Returned [] → search st q k = Returned []) ∧
  (∀ cause, embed q = Raised cause →
     search st q k = Returned ["Search error: " +:+ str_exn cause]).
Proof.
  split; [| split].
  - destruct (search_total st q k) as (results & Hs & _). by exists results.
  - intros Hr. rewrite (search_returned _ _ _ _ Hr).
    unfold slice_to. destruct (0 <=? k)%Z; by rewrite take_nil.
  - intros cause. apply search_raised.
Qed.

(** C5, as the code has it: for a query the embedding collaborator
    answers and for [k >= 0], [search q k] has at most [k] results, ranked
    by non-increasing similarity of their summary vectors to the vector of
    the query, and is a prefix of [search q (k+1)]. *)
Theorem search_ordering st q k qe :
  (0 ≤ k)%Z → embed q = Returned qe → search_ordering_holds st q k.
Proof.
  intros Hk Hq.
  destruct (retriever_invoke_ranked st q qe Hq) as (results & Hr & _ & Hranked).
  exists (slice_to results k), (slice_to results (k + 1)).
  split; [by apply search_returned |].
  split; [by apply search_returned |].
  split; [by apply slice_to_length_nonneg |].
  split; [| by apply slice_to_prefix_succ].
  rewrite slice_to_nonneg by done. by apply ranked_by_similarity_take.
Qed.

(** C9, implicit result cap: for [k > 4], [search q k] has at most four
    results, and they are those of [search q 4]: [k] only cuts the top
    four of the underlying retriever short. *)
Theorem search_capped_at_four st q k :
  (4 < k)%Z →
  ∃ results,
    search st q k = Returned results ∧
    length results ≤ 4 ∧
    search st q 4 = Returned results.
Proof.
  intros Hk. destruct (embed q) as [qe | cause] eqn:Hq.
  - destruct (retriever_invoke_ranked st q qe Hq) as (results & Hr & Hlen & _).
    exists results.
    rewrite !(search_returned _ _ _ _ Hr).
    rewrite (slice_to_all results k), (slice_to_all results 4) by lia. done.
  - eexists. rewrite !(search_raised _ _ _ _ Hq). split; [done |].
    split; [simpl; lia | done].
Qed.

(** What [search] returns on a query that can be embedded is stored
    content: each result is the entry of the document store under the
    identifier of an indexed record. *)
Lemma search_results_stored st q k qe results :
  embed q = Returned qe →
  search st q k = Returned results →
  Forall (λ r, ∃ e d id, (e, d) ∈ vectorstore st ∧ doc_key d = Some id ∧
                         docstore st !! id = Some r) results.
Proof.
  intros Hq Hs.
  destruct (retriever_invoke_ranked st q qe Hq)
    as (all & Hr & _ & (qe' & ranked & _ & Hin & _ & Hjoin)).
  rewrite (search_returned _ _ _ _ Hr) in Hs. injection Hs as <-.
  apply Forall_forall. intros r Hr'.
  apply (λ Hr, elem_of_sublist _ _ _ Hr (slice_to_sublist all k)) in Hr'.
  clear -Hin Hjoin Hr'.
  induction Hjoin as [| [e d] r' ranked all (id & Hkey & Hdoc) _ IH].
  - by apply elem_of_nil in Hr'.
  - apply elem_of_cons in Hr' as [-> | Hr'].
    + exists e, d, id. split; [apply Hin; left | done].
    + apply IH; [| done]. intros h Hh. apply Hin. by right.
Qed.

(** C6, image special case: after [add_all_content] has returned, every
    image summary is stored as the pair (summary, summary): indexed under
    an identifier whose document-store entry is the summary itself; text
    and table summaries are stored with their original element.  [search]
    returns document-store entries of indexed records only. *)
Theorem image_pairs_hold_summary st ts te tbs tbe ims st' :
  add_all_content ts te tbs tbe ims st = (Returned (), st') →
  NoDup (fresh_ids st (uuid_drawn st' - uuid_drawn st)) →
  (∀ i summary, ims !! i = Some summary →
     ∃ id, stored_pair st' id "image" summary summary) ∧
  (∀ i summary original, ts !! i = Some summary → te !! i = Some original →
     ∃ id, stored_pair st' id "text" summary original) ∧
  (∀ i summary original, tbs !! i = Some summary → tbe !! i = Some original →
     ∃ id, stored_pair st' id "table" summary original) ∧
  (∀ q k qe results, embed q = Returned qe → search st' q k = Returned results →
     Forall (λ r, ∃ e d id, (e, d) ∈ vectorstore st' ∧ doc_key d = Some id ∧
                            docstore st' !! id = Some r) results).
Proof.
  unfold add_all_content.
  set (g1 := negb (py_not ts) && negb (py_not te)).
  set (g2 := negb (py_not tbs) && negb (py_not tbe)).
  set (g3 := negb (py_not ims)).
  intros ([] & st1 & H1 & ([] & st2 & H2 & H3)%action_bind_returned)%action_bind_returned.
  intros Hnd.
  assert (uuid_drawn st ≤ uuid_drawn st1) as Hle1.
  { destruct g1; [by eapply add_documents_drawn | by injection H1 as <-]. }
  assert (uuid_drawn st1 ≤ uuid_drawn st2) as Hle2.
  { destruct g2; [by eapply add_documents_drawn | by injection H2 as <-]. }
  assert (uuid_drawn st2 ≤ uuid_drawn st') as Hle3.
  { destruct g3; [by eapply add_documents_drawn | by injection H3 as <-]. }
  set (n := uuid_drawn st' - uuid_drawn st) in *.
  eapply (guarded_call_in_range _ st n) in H1 as (_ & Hnew1 & _);
    [| done | lia | lia |].
  2: { subst g1. destruct ts, te; simpl; intros; (done || auto). }
  eapply (guarded_call_in_range _ st n) in H2 as (_ & Hnew2 & Hold2);
    [| done | lia | lia |].
  2: { subst g2. destruct tbs, tbe; simpl; intros; (done || auto). }
  eapply (guarded_call_in_range _ st n) in H3 as (_ & Hnew3 & Hold3);
    [| done | lia | lia |].
  2: { subst g3. destruct ims; simpl; intros; (done || auto). }
  split; [| split; [| split]].
  - intros i summary Hi.
    destruct (Hnew3 i summary summary Hi Hi) as (j & _ & Hpair). by exists (uuid4 j).
  - intros i summary original Hs Ho.
    destruct (Hnew1 i summary original Hs Ho) as (j & Hj & Hpair).
    exists (uuid4 j). apply Hold3; [lia |]. apply Hold2; [lia | done].
  - intros i summary original Hs Ho.
    destruct (Hnew2 i summary original Hs Ho) as (j & Hj & Hpair).
    exists (uuid4 j). apply Hold3; [lia | done].
  - intros q k qe results. apply search_results_stored.
Qed.

End SearchClaims.

(** ** Claims about the Q&A chain *)

Section QAChainClaims.
Context `{Collaborators}.
Implicit Types (st : ModernMultiVectorRetriever) (questions : list string).

Lemma chain_batch_returned st questions answers :
  chain_batch st questions = Returned answers →
  Forall2 (λ q a, chain_invoke st q = Returned a) questions answers.
Proof.
  revert answers. induction questions as [|q questions IH]; simpl; intros answers.
  - intros [= <-]. constructor.
  - unfold mbind, outcome_bind.
    destruct (chain_invoke st q) as [a|] eqn:Hq; [| done].
    destruct (chain_batch st questions) as [answers'|]; [| done].
    intros [= <-]. constructor; auto.
Qed.

Lemma chain_batch_raised st questions e :
  chain_batch st questions = Raised e →
  ∃ q, q ∈ questions ∧ chain_invoke st q = Raised e.
Proof.
  induction questions as [|q questions IH]; simpl; [done |].
  unfold mbind, outcome_bind.
  destruct (chain_invoke st q) as [a|e'] eqn:Hq.
  - destruct (chain_batch st questions) as [answers'|e'']; [done |].
    intros [= ->]. destruct IH as (q' & Hin & Hq'); [done |].
    exists q'. split; [by right | done].
  - intros [= ->]. exists q. split; [by left | done].
Qed.

(** The exception of a batch is that of its first failing question. *)
Lemma chain_batch_raised_first st questions e :
  chain_batch st questions = Raised e →
  ∃ n q, questions !! n = Some q ∧
         chain_invoke st q = Raised e ∧
         ∀ j q', j < n → questions !! j = Some q' →
                 ∃ a, chain_invoke st q' = Returned a.
Proof.
  induction questions as [|q questions IH]; simpl; [done |].
  unfold mbind, outcome_bind.
  destruct (chain_invoke st q) as [a|e'] eqn:Hq.
  - destruct (chain_batch st questions) as [answers'|e'']; [done |].
    intros [= ->]. destruct IH as (n & q' & Hn & Hq' & Hbefore); [done |].
    exists (S n), q'. split; [done |]. split; [done |].
    intros [|j] q'' Hj Hq''.
    + injection Hq'' as <-. eauto.
    + apply (Hbefore j); [lia | done].
  - intros [= ->]. exists 0, q. split; [done |]. split; [done |]. lia.
Qed.


Lemma batch_result_flag i q a : error_flag (batch_result i (q, a)) = false.
Proof. done. Qed.

Lemma batch_error_result_flag e q : error_flag (batch_error_result e q) = true.
Proof. done. Qed.

(** C4, as the code has it: [batch_ask] returns one result per question,
    in the order of the input.  When the chain answers every question,
    each result carries its answer and no error flag; when the chain
    fails on any one question, every result of the batch, the answered
    questions included, carries the error flag and the answer
    ["Batch error: " + str(cause)], where [cause] is the exception of the
    first question the chain fails on. *)
Theorem batch_ask_all_or_nothing st questions :
  ∃ results,
    batch_ask st questions = Returned results ∧
    length results = length questions ∧
    (∀ i q, questions !! i = Some q →
       ∃ r, results !! i = Some r ∧ r !! "question" = Some (VStr q)) ∧
    ((∀ q, q ∈ questions → ∃ a, chain_invoke st q = Returned a) →
       ∀ i q a, questions !! i = Some q → chain_invoke st q = Returned a →
         ∃ r, results !! i = Some r ∧ r !! "answer" = Some (VStr a) ∧
              error_flag r = false) ∧
    ((∃ q e, q ∈ questions ∧ chain_invoke st q = Raised e) →
       ∃ n q_failed cause,
         questions !! n = Some q_failed ∧
         chain_invoke st q_failed = Raised cause ∧
         (∀ j q, j < n → questions !! j = Some q →
                 ∃ a, chain_invoke st q = Returned a) ∧
         results = batch_error_result cause <$> questions ∧
         ∀ r, r ∈ results →
           error_flag r = true ∧
           r !! "answer" = Some (VStr ("Batch error: " +:+ str_exn cause))).
Proof.
  unfold batch_ask.
  destruct (chain_batch st questions) as [answers | e] eqn:Hbatch; simpl.
  - pose proof (chain_batch_returned _ _ _ Hbatch) as Hall.
    pose proof (Forall2_length _ _ _ Hall) as Hlen.
    eexists. split; [done |]. split; [| split; [| split]].
    + rewrite length_imap, length_zip_with. lia.
    + intros i q Hq.
      destruct (Forall2_lookup_l _ _ _ _ _ Hall Hq) as (a & Ha & _).
      exists (batch_result i (q, a)). split; [| done].
      rewrite list_lookup_imap.
      by rewrite (proj2 (lookup_zip_with_Some pair _ _ _ (q, a))); [| eauto].
    + intros _ i q a Hq Hqa.
      destruct (Forall2_lookup_l _ _ _ _ _ Hall Hq) as (a' & Ha & Hqa').
      assert (a' = a) as -> by congruence.
      exists (batch_result i (q, a)). split; [| done].
      rewrite list_lookup_imap.
      by rewrite (proj2 (lookup_zip_with_Some pair _ _ _ (q, a))); [| eauto].
    + intros (q & e & Hin & Hq). exfalso.
      apply list_elem_of_lookup in Hin as [i Hi].
      destruct (Forall2_lookup_l _ _ _ _ _ Hall Hi) as (a & _ & Ha).
      congruence.
  - eexists. split; [done |]. split; [| split; [| split]].
    + by rewrite length_fmap.
    + intros i q Hq. exists (batch_error_result e q).
      by rewrite list_lookup_fmap, Hq.
    + intros Hall. exfalso.
      destruct (chain_batch_raised _ _ _ Hbatch) as (q & Hin & Hq).
      destruct (Hall q Hin) as [a Ha]. congruence.
    + intros _.
      destruct (chain_batch_raised_first _ _ _ Hbatch) as (n & q & Hn & Hq & Hbefore).
      exists n, q, e. split; [done |]. split; [done |]. split; [done |].
      split; [done |].
      by intros r (q' & -> & _)%list_elem_of_fmap.
Qed.

End QAChainClaims.

(** ** Claims about the summarizer *)

Section SummarizerClaims.
Context `{Collaborators}.

Lemma summarize_loop_from invoke on_error elements (done_so_far : list string) :
  foldl (λ acc element,
    summaries ← acc;
    try_except
      (summary ← invoke element;
       Returned (summaries ++ [summary]))
      (λ e, Returned (summaries ++ [on_error e])))
    (Returned done_so_far) elements
  = Returned (done_so_far ++ (summary_or_error invoke on_error <$> elements)).
Proof.
  revert done_so_far.
  induction elements as [|element elements IH]; intros done_so_far; simpl.
  - by rewrite app_nil_r.
  - assert (try_except
              (summary ← invoke element; Returned (done_so_far ++ [summary]))
              (λ e, Returned (done_so_far ++ [on_error e]))
            = Returned (done_so_far ++ [summary_or_error invoke on_error element]))
      as -> by (unfold summary_or_error; by destruct (invoke element)).
    by rewrite IH, <- app_assoc.
Qed.

Lemma summarize_loop_returns invoke on_error elements :
  summarize_loop invoke on_error elements
  = Returned (summary_or_error invoke on_error <$> elements).
Proof. apply summarize_loop_from. Qed.

Lemma summarize_loop_summarizes invoke kind elements :
  summarizes invoke kind elements
    (summary_or_error invoke
       (λ e, "Error processing " +:+ kind +:+ ": "
             +:+ String.substring 0 100 (str_exn e) +:+ "...") <$> elements).
Proof.
  split; [by rewrite length_fmap |].
  intros i element Hi. rewrite list_lookup_fmap, Hi. simpl.
  unfold summary_or_error. by destruct (invoke element).
Qed.

(** C10, summarizer totality and length preservation: each of the three
    summarizers returns, never raises, and its list has the length of its
    input; position [i] holds the summary of element [i], or the error
    text of the handler when summarizing it failed.  Hence the three
    pairs of lists that [create_summaries] hands on to ingestion have
    equal lengths. *)
Theorem summarizers_total_and_length_preserving
    (text_elements table_elements image_elements : list string) :
  (∃ l, summarize_text_elements text_elements = Returned l ∧
        summarizes text_summarizer "text" text_elements l) ∧
  (∃ l, summarize_table_elements table_elements = Returned l ∧
        summarizes table_summarizer "table" table_elements l) ∧
  (∃ l, summarize_image_elements image_elements = Returned l ∧
        summarizes vision_chain "image" image_elements l) ∧
  (∃ text_summaries table_summaries image_summaries,
     create_summaries text_elements table_elements image_elements
     = Returned (text_summaries, table_summaries, image_summaries) ∧
     length text_summaries = length text_elements ∧
     length table_summaries = length table_elements ∧
     length image_summaries = length image_elements).
Proof.
  unfold create_summaries, summarize_text_elements, summarize_table_elements,
    summarize_image_elements.
  rewrite !summarize_loop_returns.
  split; [| split; [| split]].
  - eexists. split; [done |]. apply (summarize_loop_summarizes _ "text").
  - eexists. split; [done |]. apply (summarize_loop_summarizes _ "table").
  - eexists. split; [done |]. apply (summarize_loop_summarizes _ "image").
  - eexists _, _, _. split; [done |]. by rewrite !length_fmap.
Qed.

End SummarizerClaims.

(** ** Claims about the app *)

Section AppClaims.
Context `{Collaborators}.
Implicit Types (app : MultiModalRAGApp) (cs : list call).

Lemma ask_question_uninitialized app question :
  state_of app = Uninitialized →
  ask_question app question
  = Returned {[ "error" := VStr "Q&A chain not initialized" ]}.
Proof. unfold state_of, ask_question. by destruct (qa_chain app). Qed.

Lemma setup_retrieval_returned ts te tbs tbe ims app app' :
  setup_retrieval ts te tbs tbe ims app = (Returned (), app') →
  state_of app' = Ready.
Proof.
  unfold setup_retrieval.
  intros ([] & app1 & _ & Hbuild)%action_bind_returned.
  unfold build_qa_chain in Hbuild. by injection Hbuild as <-.
Qed.

(** A call of [setup_retrieval] that raises leaves the chain as it was. *)
Lemma setup_retrieval_raised ts te tbs tbe ims app e app' :
  setup_retrieval ts te tbs tbe ims app = (Raised e, app') →
  state_of app' = state_of app.
Proof.
  unfold setup_retrieval, mbind, action_bind, on_retriever, build_qa_chain.
  destruct (add_all_content ts te tbs tbe ims (retriever app)) as [[[]|e'] r];
    [done |].
  by intros [= _ <-].
Qed.

Lemma run_call_state c app rs app' :
  run_call c app = (Returned rs, app') →
  state_of app' = (if is_setup_retrieval c then Ready else state_of app) ∧
  (is_setup_retrieval c = false → state_of app = Uninitialized →
   Forall is_error_result rs).
Proof.
  destruct c as [ts te tbs tbe ims | question]; simpl.
  - intros ([] & app1 & Hsetup & Hret)%action_bind_returned.
    injection Hret as <- <-. split; [| done].
    by eapply setup_retrieval_returned.
  - unfold mbind, action_bind, get_state, lift_outcome.
    destruct (ask_question app question) as [r|] eqn:Hask; [| done].
    intros [= <- <-]. split; [done |]. intros _ Hstate.
    rewrite ask_question_uninitialized in Hask by done.
    injection Hask as <-. by repeat constructor.
Qed.

Lemma run_calls_state cs app rs app' :
  run_calls cs app = (Returned rs, app') →
  state_of app' = (if existsb is_setup_retrieval cs then Ready else state_of app) ∧
  (existsb is_setup_retrieval cs = false → state_of app = Uninitialized →
   Forall is_error_result rs).
Proof.
  revert app rs. induction cs as [|c cs IH]; simpl; intros app rs.
  - intros [= <- <-]. by split.
  - intros (rs1 & app1 & Hc & (rs2 & app2 & Hcs & Hret)%action_bind_returned)
      %action_bind_returned.
    injection Hret as <- <-.
    apply run_call_state in Hc as [Hstate1 Herr1].
    apply IH in Hcs as [Hstate2 Herr2].
    rewrite Hstate2, Hstate1. split.
    + by destruct (is_setup_retrieval c), (existsb is_setup_retrieval cs).
    + intros [Hc Hcs]%orb_false_elim Happ. rewrite Hc in Hstate1.
      apply Forall_app. split; [by apply Herr1 |].
      apply Herr2; [done | congruence].
Qed.

(** A session that runs to its end has run each of its prefixes. *)
Lemma run_calls_prefix cs n app rs app' :
  run_calls cs app = (Returned rs, app') →
  ∃ rs_n app_n, run_calls (take n cs) app = (Returned rs_n, app_n).
Proof.
  revert n app rs. induction cs as [|c cs IH]; intros n app rs.
  - rewrite take_nil. eauto.
  - destruct n as [|n]; [simpl; eauto |]. simpl.
    intros (rs1 & app1 & Hc & (rs2 & app2 & Hcs & Hret)%action_bind_returned)
      %action_bind_returned.
    injection Hret as _ <-.
    destruct (IH n _ _ Hcs) as (rs_n & app_n & Hn).
    exists (rs1 ++ rs_n), app_n.
    unfold mbind, action_bind. by rewrite Hc, Hn.
Qed.

(** [setup_retrieval] on empty lists writes nothing and builds the chain. *)
Lemma setup_retrieval_nothing_to_ingest app :
  setup_retrieval [] [] [] [] [] app
  = (Returned (),
     {| config := config app;
        retriever := retriever app;
        qa_chain := Some {| chain_config := config app |} |}).
Proof.
  unfold setup_retrieval, mbind, action_bind, on_retriever, add_all_content,
    build_qa_chain. simpl. by destruct (retriever app).
Qed.

(** C8, as the code has it: while the Q&A chain has not been built,
    [ask_question] returns, for every question, the result
    [{"error": "Q&A chain not initialized"}], whose error entry is true as
    a condition and which carries no answer.  Along a session that starts
    there, the app is [Uninitialized] up to the first call of
    [setup_retrieval] and [Ready] from then on: one transition, at the
    first call of [setup_retrieval] that returns, and every question asked
    before it gets an error result.  The transition does not wait for
    content: a call of [setup_retrieval] with empty lists leaves both stores
    as they were and makes the app [Ready]. *)
Theorem uninitialized_until_first_setup_retrieval app :
  state_of app = Uninitialized →
  (∀ question, ∃ r,
     ask_question app question = Returned r ∧
     r !! "error" = Some (VStr "Q&A chain not initialized") ∧
     is_error_result r) ∧
  (∀ cs results app',
     run_calls cs app = (Returned results, app') →
     ∀ n, ∃ results_n app_n,
       run_calls (take n cs) app = (Returned results_n, app_n) ∧
       state_of app_n
         = (if existsb is_setup_retrieval (take n cs) then Ready else Uninitialized) ∧
       (existsb is_setup_retrieval (take n cs) = false →
        Forall is_error_result results_n)) ∧
  (∃ app',
     setup_retrieval [] [] [] [] [] app = (Returned (), app') ∧
     retriever app' = retriever app ∧
     state_of app' = Ready).
Proof.
  intros Happ. split; [| split].
  - intros question. eexists. split; [by apply ask_question_uninitialized |].
    by repeat split.
  - intros cs results app' Hrun n.
    destruct (run_calls_prefix cs n _ _ _ Hrun) as (rs_n & app_n & Hn).
    exists rs_n, app_n. split; [done |].
    apply run_calls_state in Hn as [Hstate Herr].
    rewrite Happ in Hstate. split; [done |]. auto.
  - eexists. split; [apply setup_retrieval_nothing_to_ingest |]. by split.
Qed.

End AppClaims.

(** ** Worked instances with the concrete collaborators *)

(** C1 on the scenario of the specification: one text pair about apples. *)
Lemma pairing_invariant_witness :
  ∃ summary,
    ["A summary of apples"] !! 0 = Some summary ∧
    @stored_pair demo
      (demo_retriever ["A summary of apples"] ["Apples are a fruit grown in orchards"])
      "id-0" "text" summary "Apples are a fruit grown in orchards".
Proof.
  apply (@pairing_invariant demo empty_retriever
           ["A summary of apples"] ["Apples are a fruit grown in orchards"] "text"
           (demo_retriever ["A summary of apples"]
                           ["Apples are a fruit grown in orchards"])).
  - reflexivity.
  - vm_compute. reflexivity.
  - apply (bool_decide_unpack _). vm_compute. exact I.
  - reflexivity.
  - reflexivity.
Defined.

(** C2 on two summaries against one original: rejected, nothing written. *)
Lemma mismatch_rejection_witness :
  @add_documents_to_retriever demo ["a"; "b"] ["x"] "text" empty_retriever
  = (Raised (ValueError "Mismatch in text summaries and original content lengths"),
     empty_retriever).
Proof.
  refine (proj1 (@mismatch_rejection demo empty_retriever ["a"; "b"] ["x"] "text" _)
            _ _).
  - simpl. lia.
  - discriminate.
  - discriminate.
Defined.

(** Against C2 as stated: one summary against no original differs in
    length and is not rejected; the call returns. *)
Lemma mismatch_rejection_counterexample :
  length ["a"] ≠ length (@nil string) ∧
  ¬ @rejects_mismatch demo empty_retriever ["a"] [] "text".
Proof.
  split; [simpl; lia |]. intros [msg Hcall]. vm_compute in Hcall. discriminate Hcall.
Qed.

(** C7 on an empty list of summaries. *)
Lemma empty_input_noop_witness :
  @add_documents_to_retriever demo [] ["x"; "y"] "table" empty_retriever
  = (Returned (), empty_retriever).
Proof.
  apply (@empty_input_noop demo empty_retriever [] ["x"; "y"] "table").
  left. reflexivity.
Defined.

(** C3 with the embedding service down: [search] returns the failure as a
    result. *)
Lemma search_never_raises_witness :
  @search demo empty_retriever "offline" 4
  = Returned ["Search error: connection refused"].
Proof.
  apply (proj2 (proj2 (@search_never_raises demo empty_retriever "offline" 4))
           (UpstreamError "connection refused")).
  reflexivity.
Defined.

(** Against C3 as stated: the upstream failure is not raised. *)
Lemma search_error_contract_counterexample :
  @embed demo "offline" = Raised (UpstreamError "connection refused") ∧
  ¬ @surfaces_upstream_failure demo empty_retriever "offline" 4.
Proof.
  split; [reflexivity |]. intros Hclaim.
  destruct (Hclaim (UpstreamError "connection refused") eq_refl) as [e He].
  vm_compute in He. discriminate He.
Qed.

(** C5 on two indexed pairs and [k = 1]. *)
Lemma search_ordering_witness :
  @search_ordering_holds demo (demo_retriever ["a"; "bbb"] ["A"; "B"]) "bb" 1.
Proof.
  apply (@search_ordering demo (demo_retriever ["a"; "bbb"] ["A"; "B"]) "bb" 1 2%Z).
  - lia.
  - reflexivity.
Defined.

(** Against C5 as stated: with [k = 0] and the embedding service down there
    is one result, and with [k = -1] and two pairs indexed there is one
    result as well. *)
Lemma search_ordering_counterexample :
  ¬ @search_ordering_holds demo empty_retriever "offline" 0 ∧
  ¬ @search_ordering_holds demo (demo_retriever ["a"; "bbb"] ["A"; "B"]) "bb" (-1).
Proof.
  split.
  - intros (results & results' & Hs & _ & Hlen & _).
    vm_compute in Hs. injection Hs as <-. simpl in Hlen. lia.
  - intros (results & results' & Hs & _ & Hlen & _).
    vm_compute in Hs. injection Hs as <-. simpl in Hlen. lia.
Qed.

(** C9 on six indexed pairs and [k = 10]: four results. *)
Lemma search_capped_at_four_witness :
  ∃ results,
    @search demo
      (demo_retriever ["a"; "bb"; "ccc"; "dddd"; "eeeee"; "ffffff"]
                      ["A"; "B"; "C"; "D"; "E"; "F"]) "xx" 10
    = Returned results ∧
    length results ≤ 4 ∧
    @search demo
      (demo_retriever ["a"; "bb"; "ccc"; "dddd"; "eeeee"; "ffffff"]
                      ["A"; "B"; "C"; "D"; "E"; "F"]) "xx" 4
    = Returned results.
Proof.
  apply (@search_capped_at_four demo
           (demo_retriever ["a"; "bb"; "ccc"; "dddd"; "eeeee"; "ffffff"]
                           ["A"; "B"; "C"; "D"; "E"; "F"]) "xx" 10).
  lia.
Defined.

Example search_six_indexed_returns_four :
  @search demo
    (demo_retriever ["a"; "bb"; "ccc"; "dddd"; "eeeee"; "ffffff"]
                    ["A"; "B"; "C"; "D"; "E"; "F"]) "xx" 10
  = Returned ["B"; "A"; "C"; "D"].
Proof. vm_compute. reflexivity. Qed.

(** C6 on one text pair and one image summary. *)
Lemma image_pairs_hold_summary_witness :
  ∃ id, @stored_pair demo
          (@add_all_content demo ["t"] ["T"] [] [] ["a chart"] empty_retriever).2
          id "image" "a chart" "a chart".
Proof.
  refine (proj1 (@image_pairs_hold_summary demo empty_retriever
                   ["t"] ["T"] [] [] ["a chart"]
                   (@add_all_content demo ["t"] ["T"] [] [] ["a chart"]
                      empty_retriever).2 _ _) 0 "a chart" _).
  - vm_compute. reflexivity.
  - apply (bool_decide_unpack _). vm_compute. exact I.
  - reflexivity.
Defined.

(** Against C4 as stated: the chain answers [good] and fails on [bad]; the
    batch flags both. *)
Lemma batch_independence_counterexample :
  @chain_invoke demo empty_retriever "good" = Returned "answer to good" ∧
  @chain_invoke demo empty_retriever "bad" = Raised (UpstreamError "rate limit reached") ∧
  ¬ @batch_independent demo empty_retriever "good" "bad".
Proof.
  split; [vm_compute; reflexivity |]. split; [vm_compute; reflexivity |].
  intros (r_good & r_bad & answer & Hbatch & _ & _ & Hflag & _).
  assert (@batch_ask demo empty_retriever ["good"; "bad"]
          = Returned (batch_error_result (UpstreamError "rate limit reached")
                        <$> ["good"; "bad"])) as Hrun by (vm_compute; reflexivity).
  rewrite Hrun in Hbatch. injection Hbatch as <- <-.
  rewrite batch_error_result_flag in Hflag. discriminate Hflag.
Qed.

(** C4 on the same batch: every result carries the error flag and the
    batch error of the failing question. *)
Lemma batch_ask_all_or_nothing_witness :
  ∃ results,
    @batch_ask demo empty_retriever ["good"; "bad"] = Returned results ∧
    ∀ r, r ∈ results →
      error_flag r = true ∧
      r !! "answer" = Some (VStr "Batch error: rate limit reached").
Proof.
  destruct (@batch_ask_all_or_nothing demo empty_retriever ["good"; "bad"])
    as (results & Hrun & _ & _ & _ & Hfail).
  exists results. split; [exact Hrun |].
  destruct Hfail as (n & q_failed & cause & Hn & Hcause & _ & _ & Hflags).
  { exists "bad", (UpstreamError "rate limit reached").
    split; [| vm_compute; reflexivity].
    apply list_elem_of_In. simpl. auto. }
  assert (cause = UpstreamError "rate limit reached") as ->.
  { destruct n as [| [| n]].
    - injection Hn as <-. vm_compute in Hcause. discriminate Hcause.
    - injection Hn as <-. vm_compute in Hcause. by injection Hcause as <-.
    - discriminate Hn. }
  exact Hflags.
Defined.

(** C8 on the scenario of the specification: a question before any call
    of [setup_retrieval] gets the error result, and along [demo_session] the
    app is uninitialized after the first call and ready after the second. *)
Lemma uninitialized_until_first_setup_retrieval_witness :
  (∃ r,
     @ask_question demo (@new_app demo demo_config [] 0) "What is in the image?"
     = Returned r ∧
     r !! "error" = Some (VStr "Q&A chain not initialized") ∧
     is_error_result r) ∧
  (∃ results_1 app_1,
     @run_calls demo (take 1 demo_session) (@new_app demo demo_config [] 0)
     = (Returned results_1, app_1) ∧
     @state_of demo app_1 = Uninitialized ∧
     Forall is_error_result results_1) ∧
  (∃ results_2 app_2,
     @run_calls demo (take 2 demo_session) (@new_app demo demo_config [] 0)
     = (Returned results_2, app_2) ∧
     @state_of demo app_2 = Ready).
Proof.
  destruct (@uninitialized_until_first_setup_retrieval demo
              (@new_app demo demo_config [] 0) eq_refl) as (Hask & Hsession & _).
  assert (∃ results app',
            @run_calls demo demo_session (@new_app demo demo_config [] 0)
            = (Returned results, app')) as (results & app' & Hrun).
  { destruct (@run_calls demo demo_session (@new_app demo demo_config [] 0))
      as [[results | e] app'] eqn:Hrun.
    - by exists results, app'.
    - vm_compute in Hrun. discriminate Hrun. }
  split; [apply Hask |]. split.
  - destruct (Hsession _ _ _ Hrun 1) as (results_1 & app_1 & H1 & Hstate & Herr).
    exists results_1, app_1. split; [exact H1 |]. split; [exact Hstate |].
    apply Herr. reflexivity.
  - destruct (Hsession _ _ _ Hrun 2) as (results_2 & app_2 & H2 & Hstate & _).
    exists results_2, app_2. split; [exact H2 | exact Hstate].
Defined.

(** Against C8 as stated: after a call of [setup_retrieval] with empty
    lists nothing has been ingested, and yet the next question gets a normal
    answer. *)
Lemma answer_before_any_ingestion_counterexample :
  ∃ r app',
    @run_calls demo demo_empty_setup_session (@new_app demo demo_config [] 0)
    = (Returned [r], app') ∧
    vectorstore (@retriever demo app') = [] ∧
    docstore (@retriever demo app') = ∅ ∧
    @state_of demo app' = Ready ∧
    error_flag r = false ∧
    r !! "answer" = Some (VStr "answer to hi").
Proof.
  destruct (@run_calls demo demo_empty_setup_session (@new_app demo demo_config [] 0))
    as [[results | e] app'] eqn:Hrun.
  - assert (results = match (@run_calls demo demo_empty_setup_session
                               (@new_app demo demo_config [] 0)).1 with
                      | Returned rs => rs
                      | Raised _ => []
                      end) as Hresults by (by rewrite Hrun).
    assert (app' = (@run_calls demo demo_empty_setup_session
                      (@new_app demo demo_config [] 0)).2) as Happ
      by (by rewrite Hrun).
    destruct results as [| r [| r' results]];
      [vm_compute in Hresults; discriminate Hresults | |
       vm_compute in Hresults; discriminate Hresults].
    exists r, app'. split; [done |].
    injection Hresults as ->. rewrite Happ.
    vm_compute. by repeat split.
  - vm_compute in Hrun. discriminate Hrun.
Qed.

Example summarize_with_one_failure :
  @summarize_text_elements demo ["x"; ""; "y"]
  = Returned ["summary of x"; "Error processing text: empty input..."; "summary of y"].
Proof. vm_compute. reflexivity. Qed.

Example apples_scenario :
  @search demo
    (demo_retriever ["A summary of apples"] ["Apples are a fruit grown in orchards"])
    "Tell me about apples" 1
  = Returned ["Apples are a fruit grown in orchards"].
Proof. vm_compute. reflexivity. Qed.

(** C10 on three text elements, the second of which fails. *)
Lemma summarizers_total_and_length_preserving_witness :
  ∃ l, @summarize_text_elements demo ["x"; ""; "y"] = Returned l ∧
       @summarizes demo_summarizer "text" ["x"; ""; "y"] l.
Proof.
  apply (proj1 (@summarizers_total_and_length_preserving demo ["x"; ""; "y"] [] [])).
Defined.

(** ** Further properties of the retriever *)


(** When every document carries its own identifier, the identifiers
    collected are those of the documents, in order. *)
Lemma collect_ids_keys docs keys :
  Forall2 (λ d i, doc_key d = Some i) docs keys →
  NoDup keys →
  collect_ids docs = keys.
Proof.
  revert keys. induction docs as [|d docs IH] using rev_ind; intros keys Hkeys Hnd.
  - by apply Forall2_nil_inv_l in Hkeys as ->.
  - apply Forall2_app_inv_l in Hkeys as (keys1 & keys2 & Hdocs & Hd & ->).
    apply Forall2_cons_inv_l in Hd as (i & keys3 & Hi & ->%Forall2_nil_inv_l & ->).
    apply NoDup_app in Hnd as (Hnd1 & Hfresh & _).
    rewrite collect_ids_snoc, Hi, (IH keys1) by done.
    rewrite bool_decide_eq_false_2; [done |].
    intros Hin. apply (Hfresh i Hin). by left.
Qed.

Lemma omap_mget (store : gmap string string) keys :
  omap id (mget store keys) = omap (λ i, store !! i) keys.
Proof.
  induction keys as [|i keys IH]; [done |].
  simpl. destruct (store !! i); simpl; [f_equal |]; exact IH.
Qed.


Lemma omap_lookup_Forall2 (g : string → option string) (keys values : list string) :
  Forall2 (λ i x, g i = Some x) keys values → omap g keys = values.
Proof.
  induction 1 as [| i x keys values Hi _ IH]; [done |].
  simpl. rewrite Hi. simpl. f_equal. exact IH.
Qed.

Lemma omap_lookup_empty (keys : list string) :
  omap (λ i, (∅ : gmap string string) !! i) keys = [].
Proof.
  induction keys as [|i keys IH]; [done |]. simpl. rewrite lookup_empty. exact IH.
Qed.

Lemma mset_size pairs (store : gmap string string) :
  NoDup pairs.*1 →
  (∀ k, k ∈ pairs.*1 → store !! k = None) →
  size (mset pairs store) = size store + length pairs.
Proof.
  induction pairs as [|kv pairs IH] using rev_ind; intros Hnd Hnew.
  - simpl. lia.
  - rewrite fmap_app in Hnd, Hnew.
    apply NoDup_app in Hnd as (Hnd & Hdisj & _).
    rewrite mset_snoc, map_size_insert_None.
    + rewrite IH, length_app; [simpl; lia | done |].
      intros k Hk. apply Hnew, elem_of_app. by left.
    + rewrite mset_lookup_notin.
      * apply Hnew, elem_of_app. right. by left.
      * intros Hin. apply (Hdisj _ Hin). by left.
Qed.

Section RetrieverMore.
Context `{Collaborators}.
Implicit Types (st : ModernMultiVectorRetriever) (s o : list string).

(** The retriever a call leaves behind when the embedding fails: the
    identifiers are drawn, nothing is written. *)
Lemma add_documents_outcome st s o ct :
  add_documents_to_retriever s o ct st =
  if py_not s || py_not o then (Returned (), st)
  else if negb (length s =? length o)%nat then
    (Raised (ValueError (mismatch_message ct)), st)
  else
    match embed_documents s with
    | Returned es => (Returned (), ingested st s o ct es)
    | Raised e =>
        (Raised e,
         {| vectorstore := vectorstore st;
            docstore := docstore st;
            uuid_drawn := uuid_drawn st + length s |})
    end.
Proof.
  unfold add_documents_to_retriever.
  destruct (py_not s || py_not o); [done |].
  destruct (negb _); [done |].
  unfold try_except_action, mbind, action_bind, draw_uuids,
    vectorstore_add_documents, docstore_mset, raise. simpl.
  rewrite summary_docs_page_content.
  by destruct (embed_documents s).
Qed.

Lemma retriever_invoke_hit_ids st q qe :
  embed q = Returned qe →
  retriever_invoke st q
  = Returned (omap (λ i, docstore st !! i) (hit_ids st qe)).
Proof.
  intros Hq. unfold retriever_invoke, similarity_search, hit_ids.
  rewrite Hq. unfold mbind, outcome_bind. by rewrite omap_mget.
Qed.


(** X2, nothing to return: with an empty summary index, or with an empty
    document store (as after a restart, when only the Chroma collection was
    kept), [search] returns the empty list for every query that can be
    embedded, whatever [k] is. *)
Theorem search_empty_store st q k qe :
  vectorstore st = [] ∨ docstore st = ∅ →
  embed q = Returned qe →
  search st q k = Returned [].
Proof.
  intros Hempty Hq.
  rewrite (search_returned _ _ _ _ (retriever_invoke_hit_ids _ _ _ Hq)).
  assert (omap (λ i, docstore st !! i) (hit_ids st qe) = []) as ->.
  { destruct Hempty as [Hv | Hd].
    - unfold hit_ids. by rewrite Hv.
    - rewrite Hd. apply omap_lookup_empty. }
  unfold slice_to. by destruct (0 <=? k)%Z; rewrite take_nil.
Qed.

End RetrieverMore.

Section IngestionMore.
Context `{Collaborators}.
Implicit Types (st : ModernMultiVectorRetriever) (s o : list string).

Lemma embed_documents_length texts es :
  embed_documents texts = Returned es → length es = length texts.
Proof.
  intros Hes%embed_documents_Forall2. symmetry. by eapply Forall2_length.
Qed.

Lemma summary_docs_keys ids ct s :
  length ids = length s →
  Forall2 (λ d i, doc_key d = Some i) (summary_docs ids ct s) ids.
Proof.
  intros Hlen. apply Forall2_same_length_lookup_2.
  - unfold summary_docs. by rewrite length_imap.
  - intros i d id Hd Hid. unfold summary_docs in Hd.
    rewrite list_lookup_imap in Hd.
    destruct (s !! i) as [summary|]; [| done]. injection Hd as <-.
    unfold doc_key. simpl. rewrite lookup_insert_eq.
    by rewrite (list_lookup_total_correct _ _ _ Hid).
Qed.

(** X3, a failed call writes nothing: when [add_documents_to_retriever]
    raises, on the mismatch or because the summaries could not be embedded,
    the summary index and the document store are as they were. *)
Theorem add_documents_raised_writes_nothing st s o ct e st' :
  add_documents_to_retriever s o ct st = (Raised e, st') →
  vectorstore st' = vectorstore st ∧ docstore st' = docstore st.
Proof.
  rewrite add_documents_outcome.
  destruct (py_not s || py_not o); [done |].
  destruct (negb _); [by intros [= _ <-] |].
  destruct (embed_documents s); [done |]. by intros [= _ <-].
Qed.

(** X4, append-only: whatever a call of [add_documents_to_retriever] does,
    the records indexed before it are still there, in front, and the
    document store reads as before under every key that is not one of the
    identifiers the call draws. *)
Theorem add_documents_append_only st s o ct :
  let st' := (add_documents_to_retriever s o ct st).2 in
  vectorstore st `prefix_of` vectorstore st' ∧
  ∀ key, key ∉ fresh_ids st (length s) →
         docstore st' !! key = docstore st !! key.
Proof.
  rewrite add_documents_outcome.
  destruct (py_not s || py_not o); [done |].
  destruct (Nat.eqb_spec (length s) (length o)) as [Hlen |]; simpl; [| done].
  destruct (embed_documents s) as [es|]; simpl; [| done].
  split; [by apply prefix_app_r |].
  intros key Hkey. apply mset_lookup_notin.
  rewrite fst_zip; [done |]. rewrite fresh_ids_length. lia.
Qed.

(** X5, the counts of [get_stats]: a call that returns on two non-empty
    sequences, with identifiers that are distinct and new to the document
    store, raises both counts by the number of pairs. *)
Theorem get_stats_after_ingestion st s o ct st' :
  s ≠ [] → o ≠ [] →
  add_documents_to_retriever s o ct st = (Returned (), st') →
  NoDup (fresh_ids st (length s)) →
  (∀ id, id ∈ fresh_ids st (length s) → docstore st !! id = None) →
  get_stats st' =
  {[ "vector_documents" := AInt (Z.of_nat (length (vectorstore st) + length s));
     "stored_documents" := AInt (Z.of_nat (size (docstore st) + length s));
     "collection_name" := AStr "multimodal_summaries" ]}.
Proof.
  intros Hs Ho Hcall Hnd Hnew.
  apply add_documents_returned in Hcall
    as [[[? | ?] _] | (_ & _ & Hlen & es & Hes & ->)]; [done | done |].
  pose proof (embed_documents_length _ _ Hes) as Hes_len.
  assert ((zip (fresh_ids st (length s)) o).*1 = fresh_ids st (length s)) as Hkeys.
  { apply fst_zip. rewrite fresh_ids_length. lia. }
  unfold get_stats. simpl.
  rewrite length_app, length_zip_with. unfold summary_docs.
  rewrite length_imap, Hes_len, Nat.min_id.
  rewrite mset_size by (by rewrite Hkeys).
  rewrite length_zip_with, fresh_ids_length, <- Hlen, Nat.min_id. done.
Qed.

(** X6, read your writes: after up to four pairs went into a retriever
    with an empty summary index, under distinct identifiers, [search] with
    the default [k] returns, for every query that can be embedded, each
    original exactly once: the result is a permutation of the originals. *)
Theorem search_after_ingestion st s o ct st' q qe :
  vectorstore st = [] →
  length s ≤ 4 →
  length s = length o →
  NoDup (fresh_ids st (length s)) →
  add_documents_to_retriever s o ct st = (Returned (), st') →
  embed q = Returned qe →
  ∃ results, search st' q 4 = Returned results ∧ results ≡ₚ o.
Proof.
  intros Hempty Hfour Hlen Hnd Hcall Hq.
  apply add_documents_returned in Hcall
    as [[Hnil ->] | (_ & _ & _ & es & Hes & ->)].
  { assert (o = []) as ->
      by (destruct Hnil as [-> | ->]; [by destruct o | done]).
    exists []. split; [| done].
    rewrite (search_returned _ _ _ _ (retriever_invoke_hit_ids _ _ _ Hq)).
    unfold hit_ids. by rewrite Hempty. }
  pose proof (embed_documents_length _ _ Hes) as Hes_len.
  set (ids := fresh_ids st (length s)) in *.
  set (docs := summary_docs ids ct s).
  assert (length ids = length s) as Hids_len by apply fresh_ids_length.
  assert (length docs = length s) as Hdocs_len
    by (unfold docs, summary_docs; by rewrite length_imap).
  pose proof (summary_docs_keys ids ct s Hids_len) as Hkeys. fold docs in Hkeys.
  set (st' := ingested st s o ct es).
  set (sorted := merge_sort (ranks_before qe) (vectorstore st')).
  assert (sorted.*2 ≡ₚ docs) as Hperm.
  { unfold sorted. rewrite merge_sort_Permutation. simpl. rewrite Hempty. simpl.
    fold ids docs. rewrite snd_zip; [done |]. by rewrite Hes_len, Hdocs_len. }
  set (key := λ d, default "" (doc_key d)).
  assert (key <$> docs = ids) as Hdocs_keys.
  { clear -Hkeys. induction Hkeys as [| d i ? ? Hd _ IH]; [done |].
    simpl. unfold key at 1. rewrite Hd. simpl. f_equal. exact IH. }
  assert (Forall2 (λ d i, doc_key d = Some i) (sorted.*2) (key <$> sorted.*2))
    as Hsorted_keys.
  { apply Forall2_fmap_r, Forall_Forall2_diag.
    rewrite Hperm. apply Forall_forall. intros d Hd.
    apply list_elem_of_lookup in Hd as [i Hd].
    destruct (Forall2_lookup_l _ _ _ _ _ Hkeys Hd) as (id & _ & Hid).
    unfold key, compose. by rewrite Hid. }
  assert (key <$> sorted.*2 ≡ₚ ids) as Hperm_keys
    by (by rewrite Hperm, Hdocs_keys).
  assert (hit_ids st' qe = key <$> sorted.*2) as Hhits.
  { unfold hit_ids. fold sorted. rewrite take_ge.
    - apply collect_ids_keys; [done |]. by rewrite Hperm_keys.
    - rewrite length_fmap. unfold sorted.
      rewrite merge_sort_Permutation. simpl. rewrite Hempty. simpl.
      rewrite length_zip_with. fold ids docs.
      rewrite Hes_len, Hdocs_len, Nat.min_id. exact Hfour. }
  assert (omap (λ i, docstore st' !! i) ids = o) as Hstored.
  { apply omap_lookup_Forall2, Forall2_same_length_lookup_2; [congruence |].
    intros i id original Hid Ho. simpl. apply (mset_lookup _ i).
    - fold ids. rewrite fst_zip; [done |]. rewrite Hids_len, Hlen. done.
    - apply lookup_zip_with_Some. by eexists _, _. }
  exists (omap (λ i, docstore st' !! i) (key <$> sorted.*2)). split.
  - rewrite (search_returned _ _ _ _ (retriever_invoke_hit_ids _ _ _ Hq)), Hhits.
    rewrite slice_to_all; [done |].
    rewrite (Permutation_length (omap_Permutation _ _ _ Hperm_keys)), Hstored.
    rewrite <- Hlen. lia.
  - by rewrite Hperm_keys, Hstored.
Qed.

(** X7, no rollback across content types: when the text pairs go in and
    the table sequences are non-empty but differ in length,
    [add_all_content] raises the mismatch error for tables with the text
    pairs written and the images never attempted. *)
Theorem add_all_content_keeps_text_on_table_mismatch
    st ts te tbs tbe ims es :
  ts ≠ [] → te ≠ [] → length ts = length te →
  embed_documents ts = Returned es →
  tbs ≠ [] → tbe ≠ [] → length tbs ≠ length tbe →
  add_all_content ts te tbs tbe ims st
  = (Raised (ValueError (mismatch_message "table")), ingested st ts te "text" es).
Proof.
  intros Hts%py_not_false Hte%py_not_false Hlen Hes
         Htbs%py_not_false Htbe%py_not_false Hmis.
  unfold add_all_content, mbind, action_bind.
  rewrite Hts, Hte, Htbs, Htbe. simpl.
  rewrite (add_documents_outcome st), Hts, Hte. simpl.
  rewrite (proj2 (Nat.eqb_eq _ _) Hlen), Hes. simpl.
  rewrite add_documents_outcome, Htbs, Htbe. simpl.
  by rewrite (proj2 (Nat.eqb_neq _ _) Hmis).
Qed.

End IngestionMore.

(** ** Further properties of the Q&A chain *)

Section QAChainMore.
Context `{Collaborators}.
Implicit Types (st : ModernMultiVectorRetriever) (questions : list string).

(** X8, what [ask] flags: [ask] always returns a result for the question
    asked.  When the chain answers, the result carries the answer, no error
    flag and a context count of at most four; when the chain raises, it
    carries the error flag, the message of the failure as its answer and a
    context count of zero. *)
Theorem ask_flags_chain_failures st question :
  ∃ r, ask st question = Returned r ∧
       r !! "question" = Some (VStr question) ∧
       match chain_invoke st question with
       | Returned answer =>
           error_flag r = false ∧
           r !! "answer" = Some (VStr answer) ∧
           ∃ n, r !! "context_used" = Some (VInt (Z.of_nat n)) ∧ n ≤ 4
       | Raised e =>
           error_flag r = true ∧
           r !! "answer"
           = Some (VStr ("Error processing question: " +:+ str_exn e)) ∧
           r !! "context_used" = Some (VInt 0)
       end.
Proof.
  unfold ask. destruct (chain_invoke st question) as [answer | e]; simpl.
  - destruct (search_total st question 4) as (docs & -> & Hdocs). simpl.
    eexists. split; [done |]. split; [done |]. split; [done |].
    split; [done |]. by exists (length docs).
  - eexists. by repeat split.
Qed.

(** X9, a retrieval failure is not an error of [ask]: when the question
    cannot be embedded, the chain is still run, on the one-entry context
    that holds the search error; if the chat model answers that, [ask]
    returns the answer as a normal result, with a context count of one and
    no error flag. *)
Theorem ask_hides_retrieval_failure st question cause answer :
  embed question = Raised cause →
  answer_chain ("Content: Search error: " +:+ str_exn cause) question
  = Returned answer →
  ∃ r, ask st question = Returned r ∧
       error_flag r = false ∧
       r !! "answer" = Some (VStr answer) ∧
       r !! "context_used" = Some (VInt 1).
Proof.
  intros Hq Hanswer. unfold ask, chain_invoke.
  rewrite (search_raised _ _ _ _ Hq). simpl.
  change (format_docs ["Search error: " +:+ str_exn cause])
    with ("Content: Search error: " +:+ str_exn cause).
  rewrite Hanswer. simpl. eexists. by repeat split.
Qed.

Lemma chain_batch_succeeds st questions :
  (∀ q, q ∈ questions → ∃ a, chain_invoke st q = Returned a) →
  ∃ answers, chain_batch st questions = Returned answers.
Proof.
  induction questions as [|q questions IH]; intros Hall; simpl; [eauto |].
  destruct (Hall q) as [a Ha]; [by left |].
  destruct IH as [answers Hanswers]; [intros q' Hq'; apply Hall; by right |].
  rewrite Ha, Hanswers. simpl. eauto.
Qed.

(** X10, a batch agrees with single questions: when the chain answers
    every question of a batch, result [i] of [batch_ask] carries the same
    question and the same answer as [ask] on question [i], and neither is
    flagged. *)
Theorem batch_ask_agrees_with_ask st questions :
  (∀ q, q ∈ questions → ∃ a, chain_invoke st q = Returned a) →
  ∃ results,
    batch_ask st questions = Returned results ∧
    ∀ i q, questions !! i = Some q →
      ∃ r_batch r_ask,
        results !! i = Some r_batch ∧
        ask st q = Returned r_ask ∧
        r_batch !! "question" = r_ask !! "question" ∧
        r_batch !! "answer" = r_ask !! "answer" ∧
        error_flag r_batch = false ∧ error_flag r_ask = false.
Proof.
  intros Hall. destruct (chain_batch_succeeds _ _ Hall) as [answers Hbatch].
  pose proof (chain_batch_returned _ _ _ Hbatch) as Hanswers.
  unfold batch_ask. rewrite Hbatch. simpl.
  eexists. split; [done |]. intros i q Hq.
  destruct (Forall2_lookup_l _ _ _ _ _ Hanswers Hq) as (a & Ha & Hqa).
  exists (batch_result i (q, a)).
  unfold ask. rewrite Hqa. simpl.
  destruct (search_total st q 4) as (docs & -> & _). simpl.
  eexists. split; [| by repeat split].
  rewrite list_lookup_imap.
  by rewrite (proj2 (lookup_zip_with_Some pair _ _ _ (q, a))); [| eauto].
Qed.

End QAChainMore.

(** ** Further properties of the app *)

Section AppMore.
Context `{Collaborators}.
Implicit Types (st : ModernMultiVectorRetriever) (app : MultiModalRAGApp).

(** The pairs [add_all_content] has stored when it returns. *)
Lemma add_all_content_stored st ts te tbs tbe ims st' :
  add_all_content ts te tbs tbe ims st = (Returned (), st') →
  NoDup (fresh_ids st (uuid_drawn st' - uuid_drawn st)) →
  (∀ i summary original, ts !! i = Some summary → te !! i = Some original →
     ∃ id, stored_pair st' id "text" summary original) ∧
  (∀ i summary original, tbs !! i = Some summary → tbe !! i = Some original →
     ∃ id, stored_pair st' id "table" summary original) ∧
  (∀ i summary, ims !! i = Some summary →
     ∃ id, stored_pair st' id "image" summary summary).
Proof.
  unfold add_all_content.
  set (g1 := negb (py_not ts) && negb (py_not te)).
  set (g2 := negb (py_not tbs) && negb (py_not tbe)).
  set (g3 := negb (py_not ims)).
  intros ([] & st1 & H1 & ([] & st2 & H2 & H3)%action_bind_returned)
    %action_bind_returned Hnd.
  assert (uuid_drawn st ≤ uuid_drawn st1) as Hle1.
  { destruct g1; [by eapply add_documents_drawn | by injection H1 as <-]. }
  assert (uuid_drawn st1 ≤ uuid_drawn st2) as Hle2.
  { destruct g2; [by eapply add_documents_drawn | by injection H2 as <-]. }
  assert (uuid_drawn st2 ≤ uuid_drawn st') as Hle3.
  { destruct g3; [by eapply add_documents_drawn | by injection H3 as <-]. }
  set (n := uuid_drawn st' - uuid_drawn st) in *.
  eapply (guarded_call_in_range _ st n) in H1 as (_ & Hnew1 & _);
    [| done | lia | lia |].
  2: { subst g1. destruct ts, te; simpl; intros; (done || auto). }
  eapply (guarded_call_in_range _ st n) in H2 as (_ & Hnew2 & Hold2);
    [| done | lia | lia |].
  2: { subst g2. destruct tbs, tbe; simpl; intros; (done || auto). }
  eapply (guarded_call_in_range _ st n) in H3 as (_ & Hnew3 & Hold3);
    [| done | lia | lia |].
  2: { subst g3. destruct ims; simpl; intros; (done || auto). }
  split; [| split].
  - intros i summary original Hs Ho.
    destruct (Hnew1 i summary original Hs Ho) as (j & Hj & Hpair).
    exists (uuid4 j). apply Hold3; [lia |]. apply Hold2; [lia | done].
  - intros i summary original Hs Ho.
    destruct (Hnew2 i summary original Hs Ho) as (j & Hj & Hpair).
    exists (uuid4 j). apply Hold3; [lia | done].
  - intros i summary Hi.
    destruct (Hnew3 i summary summary Hi Hi) as (j & _ & Hpair). by exists (uuid4 j).
Qed.



Lemma setup_retrieval_raised_chain ts te tbs tbe ims app e app' :
  setup_retrieval ts te tbs tbe ims app = (Raised e, app') →
  qa_chain app' = qa_chain app.
Proof.
  unfold setup_retrieval, mbind, action_bind, on_retriever, build_qa_chain.
  destruct (add_all_content ts te tbs tbe ims (retriever app)) as [[[]|e'] r];
    [done |].
  by intros [= _ <-].
Qed.

(** X11, a failed setup changes no chain: when [setup_retrieval] raises,
    the Q&A chain of the app is the one it had before the call, so an
    uninitialized app stays uninitialized and keeps answering with the
    error result. *)
Theorem setup_retrieval_failure_keeps_chain ts te tbs tbe ims app e app' :
  setup_retrieval ts te tbs tbe ims app = (Raised e, app') →
  qa_chain app' = qa_chain app ∧
  (state_of app = Uninitialized →
   ∀ question,
     ask_question app' question
     = Returned {[ "error" := VStr "Q&A chain not initialized" ]}).
Proof.
  intros Hchain%setup_retrieval_raised_chain.
  split; [done |]. intros Hstate question.
  apply ask_question_uninitialized. unfold state_of in *. by rewrite Hchain.
Qed.

(** X12, the pipeline stores every element: when [run_full_pipeline]
    returns, the app is ready, every text and table element is stored as
    the original of the summary its summarizer produced for it, the error
    text included, and every image is stored as the pair of its description
    with itself. *)
Theorem run_full_pipeline_stores_every_element te tbe ime app app' :
  run_full_pipeline te tbe ime app = (Returned (), app') →
  NoDup (fresh_ids (retriever app)
           (uuid_drawn (retriever app') - uuid_drawn (retriever app))) →
  state_of app' = Ready ∧
  ∃ text_summaries table_summaries image_summaries,
    summarize_text_elements te = Returned text_summaries ∧
    summarize_table_elements tbe = Returned table_summaries ∧
    summarize_image_elements ime = Returned image_summaries ∧
    (∀ i element, te !! i = Some element →
       ∃ id summary, text_summaries !! i = Some summary ∧
         stored_pair (retriever app') id "text" summary element) ∧
    (∀ i element, tbe !! i = Some element →
       ∃ id summary, table_summaries !! i = Some summary ∧
         stored_pair (retriever app') id "table" summary element) ∧
    (∀ i image, ime !! i = Some image →
       ∃ id summary, image_summaries !! i = Some summary ∧
         stored_pair (retriever app') id "image" summary summary).
Proof.
  unfold run_full_pipeline, create_summaries, summarize_text_elements,
    summarize_table_elements, summarize_image_elements.
  rewrite !summarize_loop_returns.
  unfold mbind at 1, action_bind, lift_outcome. simpl.
  set (text_summaries := summary_or_error text_summarizer _ <$> te).
  set (table_summaries := summary_or_error table_summarizer _ <$> tbe).
  set (image_summaries := summary_or_error vision_chain _ <$> ime).
  intros Hsetup Hnd. split; [by eapply setup_retrieval_returned |].
  exists text_summaries, table_summaries, image_summaries.
  split; [done |]. split; [done |]. split; [done |].
  unfold setup_retrieval in Hsetup.
  apply action_bind_returned in Hsetup as ([] & app1 & Hadd & Hbuild).
  unfold build_qa_chain in Hbuild. injection Hbuild as <-. simpl.
  unfold on_retriever in Hadd.
  destruct (add_all_content _ _ _ _ _ (retriever app)) as [ret st'] eqn:Hall.
  injection Hadd as -> <-. simpl in *.
  destruct (add_all_content_stored _ _ _ _ _ _ _ Hall Hnd)
    as (Htext & Htable & Himage).
  split; [| split].
  - intros i element Hi.
    assert (∃ summary, text_summaries !! i = Some summary) as [summary Hs].
    { unfold text_summaries. rewrite list_lookup_fmap, Hi. simpl. eauto. }
    destruct (Htext i summary element Hs Hi) as [id Hid]. by exists id, summary.
  - intros i element Hi.
    assert (∃ summary, table_summaries !! i = Some summary) as [summary Hs].
    { unfold table_summaries. rewrite list_lookup_fmap, Hi. simpl. eauto. }
    destruct (Htable i summary element Hs Hi) as [id Hid]. by exists id, summary.
  - intros i image Hi.
    assert (∃ summary, image_summaries !! i = Some summary) as [summary Hs].
    { unfold image_summaries. rewrite list_lookup_fmap, Hi. simpl. eauto. }
    destruct (Himage i summary Hs) as [id Hid]. by exists id, summary.
Qed.


End AppMore.

(** ** Locating tesseract *)

Section TesseractProperties.
Variables (which : string → option string)
          (platform_system : string)
          (path_exists : string → bool).

Lemma first_existing_Some paths p :
  first_existing path_exists paths = Some p → p ∈ paths ∧ path_exists p = true.
Proof.
  induction paths as [|path paths IH]; simpl; [done |].
  destruct (path_exists path) eqn:Hpath.
  - intros [= <-]. split; [by left | done].
  - intros [Hin Hp]%IH. split; [by right | done].
Qed.

Lemma first_existing_None paths :
  first_existing path_exists paths = None →
  ∀ p, p ∈ paths → path_exists p = false.
Proof.
  induction paths as [|path paths IH]; simpl; intros Hnone p Hp.
  - by apply elem_of_nil in Hp.
  - destruct (path_exists path) eqn:Hpath; [done |].
    apply elem_of_cons in Hp as [-> | Hp]; [done | by apply IH].
Qed.

(** X14, locating tesseract: a command found on the search path is
    returned as it is, whatever is on disk.  Otherwise the result is one of
    the paths listed for the platform, and it exists; [None] comes back
    only when none of them exists. *)
Theorem validate_tesseract_finds_usable_path :
  let not_on_path := which "tesseract" = None ∨ which "tesseract" = Some "" in
  match validate_tesseract which platform_system path_exists with
  | Some p =>
      (which "tesseract" = Some p ∧ p ≠ "") ∨
      (not_on_path ∧ p ∈ common_paths platform_system ∧ path_exists p = true)
  | None =>
      not_on_path ∧
      ∀ p, p ∈ common_paths platform_system → path_exists p = false
  end.
Proof.
  unfold validate_tesseract.
  destruct (which "tesseract") as [cmd|] eqn:Hwhich.
  - destruct (String.eqb_spec cmd "") as [-> | Hcmd]; simpl.
    + destruct (first_existing _ _) as [p|] eqn:Hfirst.
      * right. split; [by right |]. by apply first_existing_Some.
      * split; [by right |]. by apply first_existing_None.
    + by left.
  - destruct (first_existing _ _) as [p|] eqn:Hfirst.
    + right. split; [by left |]. by apply first_existing_Some.
    + split; [by left |]. by apply first_existing_None.
Qed.

End TesseractProperties.

(** ** Sorting the extracted elements *)

(** [py_in] is the test for an occurrence. *)
Lemma py_in_occurs needle text :
  needle ≠ "" →
  py_in needle text = true ↔
  ∃ m, String.substring m (String.length needle) text = needle.
Proof.
  intros Hneedle. unfold py_in.
  destruct (String.index 0 needle text) as [m|] eqn:Hindex.
  - split; [| done]. intros _. exists m. by eapply String.index_correct1.
  - split; [done |]. intros [m Hm]. exfalso.
    by eapply (String.index_correct3 0 m needle text Hindex Hneedle); [lia |].
Qed.

Lemma categorize_text_and_tables_from raw texts tables :
  foldl (λ lists element,
    if py_in "CompositeElement" (element_type element) then
      (lists.1 ++ [element_text element], lists.2)
    else if py_in "Table" (element_type element) then
      (lists.1, lists.2 ++ [element_text element])
    else lists) (texts, tables) raw
  = (texts ++ (element_text <$> filter is_text_element raw),
     tables ++ (element_text <$> filter is_table_element raw)).
Proof.
  revert texts tables. induction raw as [|element raw IH]; intros texts tables.
  - simpl. by rewrite !app_nil_r.
  - cbn [foldl fst snd].
    destruct (py_in "CompositeElement" (element_type element)) eqn:Hc.
    + rewrite (filter_cons_True is_text_element), (filter_cons_False is_table_element)
        by (unfold is_text_element, is_table_element; rewrite Hc; simpl; tauto).
      rewrite IH, fmap_cons, <- app_assoc. done.
    + destruct (py_in "Table" (element_type element)) eqn:Ht.
      * rewrite (filter_cons_False is_text_element), (filter_cons_True is_table_element)
          by (unfold is_text_element, is_table_element; rewrite Hc, ?Ht; simpl; tauto).
        rewrite IH, fmap_cons, <- app_assoc. done.
      * rewrite (filter_cons_False is_text_element), (filter_cons_False is_table_element)
          by (unfold is_text_element, is_table_element; rewrite Hc, ?Ht; simpl; tauto).
        by rewrite IH.
Qed.

Lemma text_and_table_count raw :
  length (filter is_text_element raw) + length (filter is_table_element raw)
  ≤ length raw.
Proof.
  induction raw as [|element raw IH]; [done |].
  destruct (py_in "CompositeElement" (element_type element)) eqn:Hc.
  - rewrite (filter_cons_True is_text_element), (filter_cons_False is_table_element)
      by (unfold is_text_element, is_table_element; rewrite Hc; simpl; tauto).
    simpl. lia.
  - destruct (py_in "Table" (element_type element)) eqn:Ht.
    + rewrite (filter_cons_False is_text_element), (filter_cons_True is_table_element)
        by (unfold is_text_element, is_table_element; rewrite Hc, ?Ht; simpl; tauto).
      simpl. lia.
    + rewrite (filter_cons_False is_text_element), (filter_cons_False is_table_element)
        by (unfold is_text_element, is_table_element; rewrite Hc, ?Ht; simpl; tauto).
      simpl. lia.
Qed.

(** X15, text or table, never both: the text list holds, in document
    order, the texts of the elements whose class name mentions
    [CompositeElement], the table list those of the elements whose class name
    mentions [Table] and not [CompositeElement]; every other element is
    dropped, so the two lists together are no longer than the input. *)
Theorem categorize_splits_text_and_tables raw :
  (categorize_text_and_tables raw).1 = element_text <$> filter is_text_element raw ∧
  (categorize_text_and_tables raw).2 = element_text <$> filter is_table_element raw ∧
  length (categorize_text_and_tables raw).1
  + length (categorize_text_and_tables raw).2 ≤ length raw.
Proof.
  unfold categorize_text_and_tables.
  rewrite categorize_text_and_tables_from. simpl.
  split; [done |]. split; [done |].
  rewrite !length_fmap. apply text_and_table_count.
Qed.

Lemma categorize_images_from files images :
  foldl (λ acc image_file,
    image_elements ← acc;
    if is_image_file image_file then
      try_except
        (encoded_image ← encode_image image_file;
         Returned (image_elements ++ [encoded_image]))
        (λ e, Returned image_elements)
    else Returned image_elements) (Returned images) files
  = Returned (images ++ omap kept_image files).
Proof.
  revert images. induction files as [|f files IH]; intros images.
  - simpl. by rewrite app_nil_r.
  - simpl. unfold kept_image at 1.
    destruct (is_image_file f); simpl.
    + destruct (encode_image f) as [encoded | e]; simpl.
      * rewrite IH, <- app_assoc. done.
      * by rewrite IH.
    + by rewrite IH.
Qed.

Lemma kept_images_count files :
  length (omap kept_image files) ≤ length (filter is_image_file files).
Proof.
  induction files as [|f files IH]; [done |].
  cbn [omap list_omap]. unfold kept_image at 1.
  destruct (is_image_file f) eqn:Hf.
  - rewrite filter_cons_True by (rewrite Hf; simpl; tauto).
    destruct (encode_image f); simpl; lia.
  - rewrite filter_cons_False by (rewrite Hf; simpl; tauto). done.
Qed.

(** X16, unreadable images are skipped: [categorize_elements] always
    returns.  Its image list holds, in directory order, the encodings of the
    files with an image suffix (in any letter case) that could be encoded; a
    file that fails to encode is left out, and without a figures directory
    the list is empty. *)
Theorem categorize_elements_skips_unreadable_images raw figures :
  ∃ images,
    categorize_elements raw figures
    = Returned ((categorize_text_and_tables raw).1,
                (categorize_text_and_tables raw).2, images) ∧
    images = omap kept_image (default [] figures) ∧
    length images ≤ length (filter is_image_file (default [] figures)).
Proof.
  unfold categorize_elements, categorize_images.
  destruct figures as [files|]; simpl.
  - rewrite categorize_images_from. simpl.
    eexists. split; [done |]. split; [done |]. apply kept_images_count.
  - eexists. split; [done |]. split; [done |]. simpl. lia.
Qed.

(** ** Worked instances of the further properties *)


(** X2 on a retriever with nothing in it. *)
Lemma search_empty_store_witness :
  @search demo empty_retriever "bb" 4 = Returned [].
Proof.
  apply (@search_empty_store demo empty_retriever "bb" 4 2%Z).
  - left. reflexivity.
  - reflexivity.
Defined.

(** X3 on a summary the embedding service fails on. *)
Lemma add_documents_raised_writes_nothing_witness :
  vectorstore (@add_documents_to_retriever demo ["offline"] ["x"] "text"
                 empty_retriever).2 = [] ∧
  docstore (@add_documents_to_retriever demo ["offline"] ["x"] "text"
              empty_retriever).2 = ∅.
Proof.
  apply (@add_documents_raised_writes_nothing demo empty_retriever
           ["offline"] ["x"] "text" (UpstreamError "connection refused")).
  vm_compute. reflexivity.
Defined.

(** X4 on a second ingestion: the first pair is still in front. *)
Lemma add_documents_append_only_witness :
  vectorstore (demo_retriever ["a"] ["A"])
  `prefix_of`
  vectorstore (@add_documents_to_retriever demo ["bbb"] ["B"] "text"
                 (demo_retriever ["a"] ["A"])).2.
Proof.
  apply (@add_documents_append_only demo (demo_retriever ["a"] ["A"])
           ["bbb"] ["B"] "text").
Defined.

(** X5 on two pairs into an empty retriever. *)
Lemma get_stats_after_ingestion_witness :
  @get_stats demo (demo_retriever ["a"; "bbb"] ["A"; "B"])
  = {[ "vector_documents" := AInt 2;
       "stored_documents" := AInt 2;
       "collection_name" := AStr "multimodal_summaries" ]}.
Proof.
  apply (@get_stats_after_ingestion demo empty_retriever
           ["a"; "bbb"] ["A"; "B"] "text").
  - discriminate.
  - discriminate.
  - vm_compute. reflexivity.
  - apply (bool_decide_unpack _). vm_compute. exact I.
  - intros id _. apply lookup_empty.
Defined.

(** X6 on the same two pairs. *)
Lemma search_after_ingestion_witness :
  ∃ results,
    @search demo (demo_retriever ["a"; "bbb"] ["A"; "B"]) "bb" 4 = Returned results ∧
    results ≡ₚ ["A"; "B"].
Proof.
  apply (@search_after_ingestion demo empty_retriever
           ["a"; "bbb"] ["A"; "B"] "text" _ "bb" 2%Z).
  - reflexivity.
  - simpl. lia.
  - reflexivity.
  - apply (bool_decide_unpack _). vm_compute. exact I.
  - vm_compute. reflexivity.
  - reflexivity.
Defined.

(** X7 on one text pair and two table summaries against one table. *)
Lemma add_all_content_keeps_text_on_table_mismatch_witness :
  @add_all_content demo ["t"] ["T"] ["a"; "b"] ["x"] ["a chart"] empty_retriever
  = (Raised (ValueError "Mismatch in table summaries and original content lengths"),
     demo_retriever ["t"] ["T"]).
Proof.
  rewrite (@add_all_content_keeps_text_on_table_mismatch demo empty_retriever
             ["t"] ["T"] ["a"; "b"] ["x"] ["a chart"] [1%Z]).
  - vm_compute. reflexivity.
  - discriminate.
  - discriminate.
  - reflexivity.
  - reflexivity.
  - discriminate.
  - discriminate.
  - simpl. lia.
Defined.

(** X9 on a question the embedding service fails on. *)
Lemma ask_hides_retrieval_failure_witness :
  ∃ r, @ask demo empty_retriever "offline" = Returned r ∧
       error_flag r = false ∧
       r !! "answer" = Some (VStr "answer to offline") ∧
       r !! "context_used" = Some (VInt 1).
Proof.
  apply (@ask_hides_retrieval_failure demo empty_retriever "offline"
           (UpstreamError "connection refused") "answer to offline").
  - reflexivity.
  - reflexivity.
Defined.

(** X10 on a batch of two questions the chain answers. *)
Lemma batch_ask_agrees_with_ask_witness :
  ∃ r_batch r_ask,
    (∃ results, @batch_ask demo empty_retriever ["good"; "fine"] = Returned results ∧
                results !! 1 = Some r_batch) ∧
    @ask demo empty_retriever "fine" = Returned r_ask ∧
    r_batch !! "answer" = r_ask !! "answer".
Proof.
  destruct (@batch_ask_agrees_with_ask demo empty_retriever ["good"; "fine"])
    as (results & Hbatch & Hall).
  - intros q Hq. apply list_elem_of_In in Hq.
    destruct Hq as [<- | [<- | []]]; eexists; vm_compute; reflexivity.
  - destruct (Hall 1 "fine" eq_refl) as (r_batch & r_ask & Hr & Hask & _ & Hanswer & _).
    exists r_batch, r_ask. split; [by exists results | by split].
Defined.

(** X11 on a first ingestion that fails: the app stays uninitialized. *)
Lemma setup_retrieval_failure_keeps_chain_witness :
  @qa_chain demo
    (@setup_retrieval demo ["offline"] ["x"] [] [] []
       (@new_app demo demo_config [] 0)).2 = None.
Proof.
  apply (proj1 (@setup_retrieval_failure_keeps_chain demo
                  ["offline"] ["x"] [] [] [] (@new_app demo demo_config [] 0)
                  (UpstreamError "connection refused") _ ltac:(vm_compute; reflexivity))).
Defined.

(** X12 on a text element, an element the summarizer fails on and an
    image. *)
Lemma run_full_pipeline_stores_every_element_witness :
  @state_of demo
    (@run_full_pipeline demo ["x"; ""] [] ["img"] (@new_app demo demo_config [] 0)).2
  = Ready.
Proof.
  apply (proj1 (@run_full_pipeline_stores_every_element demo ["x"; ""] [] ["img"]
                  (@new_app demo demo_config [] 0) _
                  ltac:(vm_compute; reflexivity)
                  ltac:(apply (bool_decide_unpack _); vm_compute; exact I))).
Defined.

(** X14 on a Linux machine with tesseract under [/usr/local/bin] only. *)
Lemma validate_tesseract_finds_usable_path_witness :
  validate_tesseract (λ _, None) "Linux" demo_path_exists
  = Some "/usr/local/bin/tesseract" ∧
  demo_path_exists "/usr/local/bin/tesseract" = true.
Proof.
  pose proof (validate_tesseract_finds_usable_path (λ _, None) "Linux"
                demo_path_exists) as Hfound.
  split; [reflexivity |].
  simpl in Hfound. destruct Hfound as [[Hwhich _] | (_ & _ & Hexists)].
  - discriminate Hwhich.
  - exact Hexists.
Defined.

Example categorize_demo_elements :
  categorize_elements demo_elements (Some demo_figures)
  = Returned (["Revenue grew"], ["2022 2023"], ["aGVsbG8="]).
Proof. vm_compute. reflexivity. Qed.

(** ** The pipeline from the document on *)



Section PipelineProperties.
Context `{Collaborators}.
Implicit Types (app : MultiModalRAGApp).





End PipelineProperties.


Example pipeline_on_missing_document :
  (@run_full_pipeline_on_pdf demo demo_missing_pdf (@new_app demo demo_config [] 0)).1
  = Raised (FileNotFoundError "PDF file not found: report.pdf").
Proof. vm_compute. reflexivity. Qed.

Example pipeline_with_embedding_down :
  (@run_full_pipeline_on_pdf demo_offline demo_pdf
     (@new_app demo_offline demo_config [] 0)).1
  = Raised (UpstreamError "connection refused").
Proof. vm_compute. reflexivity. Qed.
